(** * mTAN interpolation notebook (main.ipynb): model and properties

    A shallow embedding of the notebook's code: [TimeEmbedding],
    [MultiTimeAttention], [ImprovedMTAN], [train_model] and [interpolate].

    Modelling conventions.
    - A torch tensor (and a numpy array) is a [tensor]: a shape and the value
      at each multi-index.  Values outside the shape are never read by a
      well-shaped program and carry no meaning.
    - Tensor entries are real numbers: float32/float64 rounding, overflow and
      NaN are idealised away everywhere except in the trainer, whose loss is
      an IEEE datum ([spec_float]).
    - A Python exception is a [Raise] in the [result] monad.
    - The values drawn by the random initialisation of [nn.Linear] are
      explicit arguments of the constructors.
    - Sizes are natural numbers. *)

From Stdlib Require Import Reals Lra Lia List Arith PeanoNat Bool ZArith.
From Stdlib Require Import Floats.SpecFloat.
From Stdlib Require Import Sorting.Permutation.
Import ListNotations.
Local Open Scope R_scope.


(* ------------------------------------------------------------------ *)
(** * Exceptions *)

Inductive runtime_error : Type :=
| ShapeMismatch      (* mat1 and mat2 shapes cannot be multiplied / size mismatch *)
| InvalidView        (* shape '[...]' is invalid for input of size n *)
| RequiresGrad.      (* Can't call numpy() on Tensor that requires grad *)

Inductive exn : Type :=
| ZeroDivisionError
| ValueError
| TypeError
| RuntimeError (why : runtime_error).

Inductive result (A : Type) : Type :=
| Ok (a : A)
| Raise (e : exn).
Arguments Ok {A} a.
Arguments Raise {A} e.

Definition bind {A B : Type} (m : result A) (k : A -> result B) : result B :=
  match m with
  | Ok a => k a
  | Raise e => Raise e
  end.

Notation "x <- m ;; k" := (bind m (fun x => k))
  (at level 61, m at next level, right associativity).

(** From [x <- m ;; k = Ok b] to [m = Ok a] and [k a = Ok b]. *)
Ltac inv_bind H :=
  let a := fresh "a" in
  let Ha := fresh "H" a in
  let E := fresh "E" in
  match type of H with
  | bind ?m ?k = Ok ?b =>
      assert (E : exists a', m = Ok a' /\ k a' = Ok b)
        by (destruct m; [eexists; split; [reflexivity | exact H] | discriminate H]);
      clear H; destruct E as [a [Ha H]]
  end.

Fixpoint mapM {A B : Type} (f : A -> result B) (l : list A) : result (list B) :=
  match l with
  | [] => Ok []
  | a :: l' => b <- f a ;; bs <- mapM f l' ;; Ok (b :: bs)
  end.

(* ------------------------------------------------------------------ *)
(** * Tensors *)

Record tensor : Type := mkTensor {
  shape : list nat;
  data : list nat -> R
}.

(** [sum_upto n f] is f 0 + ... + f (n-1). *)
Fixpoint sum_upto (n : nat) (f : nat -> R) : R :=
  match n with
  | O => 0
  | S k => sum_upto k f + f k
  end.

Definition numel (sh : list nat) : nat := fold_right Nat.mul 1%nat sh.

(** Row-major position of an index, and back. *)
Fixpoint ravel (sh idx : list nat) : nat :=
  match sh, idx with
  | _ :: sh', i :: idx' => (i * numel sh' + ravel sh' idx')%nat
  | _, _ => 0%nat
  end.

Fixpoint unravel (sh : list nat) (pos : nat) : list nat :=
  match sh with
  | [] => []
  | _ :: sh' => (pos / numel sh')%nat :: unravel sh' (pos mod numel sh')%nat
  end.

Fixpoint shape_eqb (a b : list nat) : bool :=
  match a, b with
  | [], [] => true
  | x :: a', y :: b' => (x =? y)%nat && shape_eqb a' b'
  | _, _ => false
  end.

Definition set_last (idx : list nat) (i : nat) : list nat := removelast idx ++ [i].

(** [torch.tensor(l)] for a one-dimensional array [l]. *)
Definition torch_tensor (l : list R) : tensor :=
  mkTensor [length l] (fun idx => nth (hd 0%nat idx) l 0).

(** [t.unsqueeze(0)] and [t.unsqueeze(-1)]. *)
Definition unsqueeze_first (t : tensor) : tensor :=
  mkTensor (1%nat :: shape t) (fun idx => data t (tl idx)).

Definition unsqueeze_last (t : tensor) : tensor :=
  mkTensor (shape t ++ [1%nat]) (fun idx => data t (removelast idx)).

(** [t.squeeze(-1)]: drops the last axis when its size is 1, else no change. *)
Definition squeeze_last (t : tensor) : tensor :=
  if (last (shape t) 0 =? 1)%nat
  then mkTensor (removelast (shape t)) (fun idx => data t (idx ++ [0%nat]))
  else t.

(** [t.squeeze()]: drops every axis of size 1. *)
Fixpoint squeezed_shape (sh : list nat) : list nat :=
  match sh with
  | [] => []
  | s :: sh' => if (s =? 1)%nat then squeezed_shape sh' else s :: squeezed_shape sh'
  end.

Fixpoint unsqueezed_index (sh idx : list nat) : list nat :=
  match sh with
  | [] => []
  | s :: sh' =>
      if (s =? 1)%nat then 0%nat :: unsqueezed_index sh' idx
      else hd 0%nat idx :: unsqueezed_index sh' (tl idx)
  end.

Definition squeeze (t : tensor) : tensor :=
  mkTensor (squeezed_shape (shape t))
           (fun idx => data t (unsqueezed_index (shape t) idx)).

(** Pointwise application, e.g. [torch.cos(t)] and [t / c]. *)
Definition tmap (f : R -> R) (t : tensor) : tensor :=
  mkTensor (shape t) (fun idx => f (data t idx)).

Definition div_scalar (t : tensor) (c : R) : tensor := tmap (fun v => v / c) t.

(** [a + b] on tensors of one shape, the only case that arises here (the two
    score tensors of a block; a block's output and its input in a model
    built by the constructor). *)
Definition add (a b : tensor) : result tensor :=
  if shape_eqb (shape a) (shape b)
  then Ok (mkTensor (shape a) (fun idx => data a idx + data b idx))
  else Raise (RuntimeError ShapeMismatch).

(** [t.view(sh)] of a contiguous tensor: same storage, new shape; fails when
    the number of elements differs. *)
Definition view (sh : list nat) (t : tensor) : result tensor :=
  if (numel (shape t) =? numel sh)%nat
  then Ok (mkTensor sh (fun idx => data t (unravel (shape t) (ravel sh idx))))
  else Raise (RuntimeError InvalidView).

(** [t.transpose(d0, d1)], used on the rank-4 tensors made by [view]. *)
Definition swap (d0 d1 : nat) (l : list nat) : list nat :=
  map (fun k => nth (if (k =? d0)%nat then d1 else if (k =? d1)%nat then d0 else k) l 0%nat)
      (seq 0 (length l)).

Definition transpose (d0 d1 : nat) (t : tensor) : tensor :=
  mkTensor (swap d0 d1 (shape t)) (fun idx => data t (swap d0 d1 idx)).

(** [torch.matmul(a, b)] for two tensors with the same leading (batch) axes:
    a is (..., n, m), b is (..., m, p). *)
Definition matmul (a b : tensor) : result tensor :=
  match rev (shape a), rev (shape b) with
  | m :: n :: ba, p :: m' :: bb =>
      if shape_eqb ba bb then
        if (m =? m')%nat then
          Ok (mkTensor (rev ba ++ [n; p])
                (fun idx =>
                   let bi := removelast (removelast idx) in
                   let i := last (removelast idx) 0%nat in
                   let j := last idx 0%nat in
                   sum_upto m (fun k => data a (bi ++ [i; k]) * data b (bi ++ [k; j]))))
        else Raise (RuntimeError ShapeMismatch)
      else Raise (RuntimeError ShapeMismatch)
  | _, _ => Raise (RuntimeError ShapeMismatch)
  end.

(** [torch.softmax(t, dim=-1)]. *)
Definition softmax (t : tensor) : tensor :=
  mkTensor (shape t)
    (fun idx =>
       exp (data t idx)
       / sum_upto (last (shape t) 0%nat) (fun j => exp (data t (set_last idx j)))).

(* ------------------------------------------------------------------ *)
(** * nn.Linear *)

Record Linear : Type := mkLinear {
  in_features : nat;
  out_features : nat;
  weight : nat -> nat -> R;     (* weight[o][i], shape (out_features, in_features) *)
  bias : nat -> R               (* bias[o], shape (out_features) *)
}.

(** Initial values of a linear layer's parameters. *)
Record LinearInit : Type := mkLinearInit {
  init_weight : nat -> nat -> R;
  init_bias : nat -> R
}.

Definition nn_Linear (i o : nat) (theta : LinearInit) : Linear :=
  mkLinear i o (init_weight theta) (init_bias theta).

(** [self(x)] for a linear layer: x @ weight^T + bias along the last axis. *)
Definition Linear_forward (self : Linear) (x : tensor) : result tensor :=
  match rev (shape x) with
  | n :: _ =>
      if (n =? in_features self)%nat then
        Ok (mkTensor (removelast (shape x) ++ [out_features self])
              (fun idx =>
                 let o := last idx 0%nat in
                 sum_upto (in_features self)
                          (fun i => data x (set_last idx i) * weight self o i)
                 + bias self o))
      else Raise (RuntimeError ShapeMismatch)
  | [] => Raise (RuntimeError ShapeMismatch)
  end.

(* ------------------------------------------------------------------ *)
(** * TimeEmbedding *)

Record TimeEmbedding : Type := mkTimeEmbedding {
  dim : nat;
  w : Linear
}.

Definition TimeEmbedding_init (d : nat) (theta : LinearInit) : TimeEmbedding :=
  mkTimeEmbedding d (nn_Linear 1 d theta).

Definition TimeEmbedding_forward (self : TimeEmbedding) (t : tensor) : result tensor :=
  let t := unsqueeze_last t in
  y <- Linear_forward (w self) t ;;
  Ok (tmap cos y).

(* ------------------------------------------------------------------ *)
(** * MultiTimeAttention *)

Record MultiTimeAttention : Type := mkMultiTimeAttention {
  embed_dim : nat;
  num_heads : nat;
  head_dim : nat;
  q_linear : Linear;
  k_linear : Linear;
  v_linear : Linear;
  time_embedding : TimeEmbedding
}.

Record AttentionInit : Type := mkAttentionInit {
  q_init : LinearInit;
  k_init : LinearInit;
  v_init : LinearInit;
  te_init : LinearInit
}.

(** [__init__]: [embed_dim // num_heads] raises for [num_heads = 0]; nothing
    else is checked. *)
Definition MultiTimeAttention_init (input_dim e h : nat) (theta : AttentionInit)
  : result MultiTimeAttention :=
  if (h =? 0)%nat then Raise ZeroDivisionError
  else Ok (mkMultiTimeAttention e h (e / h)
             (nn_Linear input_dim e (q_init theta))
             (nn_Linear input_dim e (k_init theta))
             (nn_Linear input_dim e (v_init theta))
             (TimeEmbedding_init e (te_init theta))).

(** [y.view(B, L, self.num_heads, self.head_dim).transpose(1, 2)]. *)
Definition split_heads (self : MultiTimeAttention) (B L : nat) (y : tensor)
  : result tensor :=
  y4 <- view [B; L; num_heads self; head_dim self] y ;;
  Ok (transpose 1 2 y4).

(** [t.transpose(-2, -1)]. *)
Definition transpose_last (t : tensor) : tensor :=
  transpose (length (shape t) - 2) (length (shape t) - 1) t.

(** The four streams q, k, v, te once reshaped into heads. *)
Record heads : Type := mkHeads {
  hq : tensor;
  hk : tensor;
  hv : tensor;
  hte : tensor
}.

(** [forward], up to the reshape into heads. *)
Definition MultiTimeAttention_heads (self : MultiTimeAttention) (x t : tensor)
  : result heads :=
  match shape x with
  | [B; L; _] =>
      q <- Linear_forward (q_linear self) x ;;
      k <- Linear_forward (k_linear self) x ;;
      v <- Linear_forward (v_linear self) x ;;
      te <- TimeEmbedding_forward (time_embedding self) t ;;
      q <- split_heads self B L q ;;
      k <- split_heads self B L k ;;
      v <- split_heads self B L v ;;
      te <- split_heads self B L te ;;
      Ok (mkHeads q k v te)
  | _ => Raise ValueError
  end.

(** The content scores [matmul(q, k^T) / sqrt(head_dim)]. *)
Definition content_scores (self : MultiTimeAttention) (hs : heads) : result tensor :=
  qk <- matmul (hq hs) (transpose_last (hk hs)) ;;
  Ok (div_scalar qk (sqrt (INR (head_dim self)))).

(** The time scores [matmul(q, te^T) / sqrt(head_dim)]. *)
Definition time_scores (self : MultiTimeAttention) (hs : heads) : result tensor :=
  qt <- matmul (hq hs) (transpose_last (hte hs)) ;;
  Ok (div_scalar qt (sqrt (INR (head_dim self)))).

(** [attn] before the softmax. *)
Definition MultiTimeAttention_logits (self : MultiTimeAttention) (hs : heads)
  : result tensor :=
  attn <- content_scores self hs ;;
  attn_t <- time_scores self hs ;;
  add attn attn_t.

(** [attn] after the softmax. *)
Definition MultiTimeAttention_weights (self : MultiTimeAttention) (hs : heads)
  : result tensor :=
  attn <- MultiTimeAttention_logits self hs ;;
  Ok (softmax attn).

Definition MultiTimeAttention_forward (self : MultiTimeAttention) (x t : tensor)
  : result tensor :=
  match shape x with
  | [B; L; _] =>
      hs <- MultiTimeAttention_heads self x t ;;
      attn <- MultiTimeAttention_weights self hs ;;
      out <- matmul attn (hv hs) ;;
      view [B; L; embed_dim self] (transpose 1 2 out)
  | _ => Raise ValueError
  end.

(* ------------------------------------------------------------------ *)
(** * ImprovedMTAN *)

Record ImprovedMTAN : Type := mkImprovedMTAN {
  input_proj : Linear;
  attention_layers : list MultiTimeAttention;
  fc : Linear
}.

Record ModelInit : Type := mkModelInit {
  input_proj_init : LinearInit;
  layers_init : nat -> AttentionInit;
  fc_init : LinearInit
}.

Definition ImprovedMTAN_init (input_dim hidden_dim heads_ num_layers : nat)
  (theta : ModelInit) : result ImprovedMTAN :=
  let ip := nn_Linear input_dim hidden_dim (input_proj_init theta) in
  layers <- mapM (fun i => MultiTimeAttention_init hidden_dim hidden_dim heads_
                             (layers_init theta i))
                 (seq 0 num_layers) ;;
  Ok (mkImprovedMTAN ip layers (nn_Linear hidden_dim 1 (fc_init theta))).

(** The loop [for layer in self.attention_layers: x = layer(x, t) + x]. *)
Fixpoint residual_stack (layers : list MultiTimeAttention) (x t : tensor)
  : result tensor :=
  match layers with
  | [] => Ok x
  | layer :: rest =>
      y <- MultiTimeAttention_forward layer x t ;;
      x' <- add y x ;;
      residual_stack rest x' t
  end.

Definition ImprovedMTAN_forward (self : ImprovedMTAN) (t x : tensor)
  : result tensor :=
  x <- Linear_forward (input_proj self) (unsqueeze_last x) ;;
  x <- residual_stack (attention_layers self) x t ;;
  y <- Linear_forward (fc self) x ;;
  Ok (squeeze_last y).

(* ------------------------------------------------------------------ *)
(** * numpy.interp

    The library routine behind [np.interp(x, xp, fp)], with its default
    [left = fp[0]] and [right = fp[-1]]: for each x it locates the knot j
    with xp[j] <= x < xp[j+1] and returns fp[j] when x = xp[j], else
    slope * (x - xp[j]) + fp[j].  numpy locates j by bisection, which agrees
    with the left-to-right scan below on increasing [xp]. *)

(** [interp_from x x0 f0 xp fp]: x0 <= x, and (x0, f0) is the knot just
    before the remaining knots [xp], [fp]. *)
Fixpoint interp_from (x x0 f0 : R) (xp fp : list R) : R :=
  match xp, fp with
  | x1 :: xp', f1 :: fp' =>
      if Rlt_dec x x1
      then if Req_dec_T x x0 then f0
           else (f1 - f0) / (x1 - x0) * (x - x0) + f0
      else interp_from x x1 f1 xp' fp'
  | _, _ => f0
  end.

Definition interp_at (xp fp : list R) (x : R) : R :=
  match xp, fp with
  | x0 :: xp', f0 :: fp' =>
      if Rlt_dec x x0 then f0 else interp_from x x0 f0 xp' fp'
  | _, _ => 0
  end.

Definition np_interp (x xp fp : list R) : result (list R) :=
  match xp with
  | [] => Raise ValueError                    (* array of sample points is empty *)
  | _ :: _ =>
      if (length fp =? length xp)%nat
      then Ok (map (interp_at xp fp) x)
      else Raise ValueError                   (* fp and xp are not of the same length *)
  end.

(* ------------------------------------------------------------------ *)
(** * The interpreter state seen by [interpolate]

    [model] is a reference to a module object whose parameters live in the
    state, next to autograd's global grad mode. *)

Record World : Type := mkWorld {
  grad_enabled : bool;
  module : ImprovedMTAN
}.

Definition set_grad_enabled (b : bool) (st : World) : World :=
  mkWorld b (module st).

(** A tensor together with whether autograd tracks it. *)
Record tracked : Type := mkTracked {
  value : tensor;
  requires_grad : bool
}.

(** [model(t, x)]: runs [forward]; as the inputs are plain data and every
    parameter of the model requires grad, the output is tracked exactly when
    grad mode is on. *)
Definition call_model (st : World) (t x : tensor) : result tracked :=
  out <- ImprovedMTAN_forward (module st) t x ;;
  Ok (mkTracked out (grad_enabled st)).

(** [a.numpy()]. *)
Definition Tensor_numpy (a : tracked) : result tensor :=
  if requires_grad a then Raise (RuntimeError RequiresGrad) else Ok (value a).

(** The body of [interpolate] after [x_dense] has been computed. *)
Definition interpolate_dense (st : World) (t_dense x_dense : list R)
  : result tensor :=
  let t_dense_tensor := unsqueeze_first (torch_tensor t_dense) in
  let x_dense_tensor := unsqueeze_first (torch_tensor x_dense) in
  output <- call_model st t_dense_tensor x_dense_tensor ;;
  Tensor_numpy (mkTracked (squeeze (value output)) (requires_grad output)).

(** [interpolate(model, t, x, t_dense)].  [with torch.no_grad()] switches
    grad mode off on entry and restores the previous mode on exit, whether
    the body returns or raises. *)
Definition interpolate (t x t_dense : list R) (st : World)
  : result tensor * World :=
  let prev := grad_enabled st in
  let st1 := set_grad_enabled false st in
  let r := x_dense <- np_interp t_dense t x ;;
           interpolate_dense st1 t_dense x_dense in
  (r, set_grad_enabled prev st1).

(* ------------------------------------------------------------------ *)
(** * train_model

    The float32 forward pass, [nn.MSELoss], autograd, Adam and
    ReduceLROnPlateau are torch code, taken as parameters; the loop is
    written over them.  Of the two constructors the model keeps what the
    notebook's call can run into: [optim.Adam] rejects a learning rate for
    which [0.0 <= lr] is false (negative or NaN) with ValueError before
    anything else, and either constructor may raise (an empty parameter
    list; a torch without the [verbose] keyword).  Of the scheduler it keeps
    the epoch counter [last_epoch], which [step] increments, and the lines
    that [verbose=True] makes it print. *)

Definition f32_sub := SFsub 24 128.
Definition f32_mul := SFmul 24 128.
Definition f32_div := SFdiv 24 128.
Definition f32_of_nat (n : nat) : spec_float :=
  binary_normalize 24 128 (Z.of_nat n) 0 false.

Definition is_finite (f : spec_float) : bool :=
  match f with
  | S754_zero _ | S754_finite _ _ _ => true
  | S754_infinity _ | S754_nan => false
  end.

(** A line on standard output: the progress line of the loop, or a line
    printed by the scheduler. *)
Inductive line (SchedulerLine : Type) : Type :=
| Progress (epoch epochs : nat) (loss : spec_float)
| FromScheduler (l : SchedulerLine).
Arguments Progress {SchedulerLine} epoch epochs loss.
Arguments FromScheduler {SchedulerLine} l.

Section Trainer.

Variables Module_ Tensor_ Optimizer Plateau SchedulerLine : Type.

(** [model(t, x)] in float32. *)
Variable call : Module_ -> Tensor_ -> Tensor_ -> result Tensor_.
(** [nn.MSELoss()(output, target)]. *)
Variable MSELoss : Tensor_ -> Tensor_ -> result spec_float.
(** [optim.Adam(model.parameters(), lr=lr)] for an accepted [lr]. *)
Variable Adam : Module_ -> spec_float -> result Optimizer.
(** [ReduceLROnPlateau(optimizer, patience=p, factor=f, verbose=v)]: the
    plateau bookkeeping of the new scheduler. *)
Variable ReduceLROnPlateau : Optimizer -> nat -> spec_float -> bool -> result Plateau.
(** [optimizer.zero_grad()]: clears the gradients held by the parameters. *)
Variable zero_grad : Optimizer -> Module_ -> Module_.
(** [loss.backward()]: fills the gradients of the parameters. *)
Variable backward : Module_ -> Tensor_ -> Tensor_ -> Module_.
(** [optimizer.step()]. *)
Variable optimizer_step : Optimizer -> Module_ -> Optimizer * Module_.
(** The plateau test of [scheduler.step(loss)]: may lower the optimizer's
    step size, and then prints a line when verbose. *)
Variable plateau_step :
  Plateau -> spec_float -> Optimizer -> Plateau * Optimizer * list SchedulerLine.

Record Scheduler : Type := mkScheduler {
  last_epoch : nat;
  plateau : Plateau
}.

Record TrainState : Type := mkTrainState {
  trained : Module_;
  optimizer : Optimizer;
  scheduler : Scheduler;
  stdout : list (line SchedulerLine)
}.

(** [optim.Adam(..., lr=lr)] with its first check, [if not 0.0 <= lr]. *)
Definition Adam_init (model : Module_) (lr : spec_float) : result Optimizer :=
  if SFleb (S754_zero false) lr then Adam model lr else Raise ValueError.

(** The constructor of the scheduler: [last_epoch] starts at 0. *)
Definition Scheduler_init (opt : Optimizer) (patience : nat) (factor : spec_float)
  (verbose : bool) : result Scheduler :=
  p <- ReduceLROnPlateau opt patience factor verbose ;;
  Ok (mkScheduler 0 p).

(** [scheduler.step(loss)]. *)
Definition scheduler_step (sch : Scheduler) (loss : spec_float) (opt : Optimizer)
  : Scheduler * Optimizer * list SchedulerLine :=
  let '(p, opt', printed) := plateau_step (plateau sch) loss opt in
  (mkScheduler (S (last_epoch sch)) p, opt', printed).

(** One iteration of the loop. *)
Definition epoch_body (t_tensor x_tensor : Tensor_) (epochs epoch : nat)
  (s : TrainState) : result TrainState :=
  let m := zero_grad (optimizer s) (trained s) in
  output <- call m t_tensor x_tensor ;;
  loss <- MSELoss output x_tensor ;;
  let m := backward m t_tensor x_tensor in
  let (opt, m) := optimizer_step (optimizer s) m in
  let '(sch, opt, printed) := scheduler_step (scheduler s) loss opt in
  let out := stdout s ++ map FromScheduler printed in
  let out := if ((epoch + 1) mod 1000 =? 0)%nat
             then out ++ [Progress (epoch + 1) epochs loss]
             else out in
  Ok (mkTrainState m opt sch out).

(** [for epoch in range(epochs): ...]. *)
Fixpoint train_loop (t_tensor x_tensor : Tensor_) (epochs : nat)
  (range : list nat) (s : TrainState) : result TrainState :=
  match range with
  | [] => Ok s
  | epoch :: rest =>
      s' <- epoch_body t_tensor x_tensor epochs epoch s ;;
      train_loop t_tensor x_tensor epochs rest s'
  end.

(** 0.5 in float32. *)
Definition f32_half : spec_float := S754_finite false 8388608 (-24).

(** [train_model(model, t, x, epochs, lr)]; [t] and [x] are given as the
    tensors [t_tensor] and [x_tensor]. *)
Definition train_model (model : Module_) (t x : Tensor_)
  (epochs : nat) (lr : spec_float) : result TrainState :=
  opt <- Adam_init model lr ;;
  sch <- Scheduler_init opt 100 f32_half true ;;
  train_loop t x epochs (seq 0 epochs) (mkTrainState model opt sch []).

End Trainer.

(* ------------------------------------------------------------------ *)
(** * Reference definitions used by the statements *)

(** The model without its attention blocks: input projection, then output
    projection, at each position. *)
Definition projection_only (self : ImprovedMTAN) (x : tensor) : result tensor :=
  h <- Linear_forward (input_proj self) (unsqueeze_last x) ;;
  y <- Linear_forward (fc self) h ;;
  Ok (squeeze_last y).

(** The progress lines of the loop among the lines printed, as
    (epoch, epochs, loss). *)
Definition progress_lines {L : Type} (out : list (line L))
  : list (nat * nat * spec_float) :=
  flat_map (fun l => match l with
                     | Progress e n loss => [(e, n, loss)]
                     | FromScheduler _ => []
                     end) out.

(** Parameter values used by the examples: all weights and biases 0. *)
Definition zero_linear_init : LinearInit := mkLinearInit (fun _ _ => 0) (fun _ => 0).

Definition zero_attention_init : AttentionInit :=
  mkAttentionInit zero_linear_init zero_linear_init zero_linear_init zero_linear_init.

Definition zero_model_init : ModelInit :=
  mkModelInit zero_linear_init (fun _ => zero_attention_init) zero_linear_init.

(** Times strictly increasing along the list. *)
Fixpoint strictly_increasing (l : list R) : Prop :=
  match l with
  | a :: (b :: _) as l' => a < b /\ strictly_increasing l'
  | _ => True
  end.

(** [v] is the value at [q] of the piecewise-linear interpolant through the
    points (ts[j], xs[j]): the first value at or below the first time, the
    last value at or above the last time, and on the chord between two
    consecutive points in between. *)
Definition piecewise_linear (ts xs : list R) (q v : R) : Prop :=
  (q <= hd 0 ts -> v = hd 0 xs) /\
  (last ts 0 <= q -> v = last xs 0) /\
  (forall j a b fa fb,
      nth_error ts j = Some a -> nth_error ts (S j) = Some b ->
      nth_error xs j = Some fa -> nth_error xs (S j) = Some fb ->
      a <= q <= b ->
      v = fa + (fb - fa) * (q - a) / (b - a)).

(** A model with no attention block, width 1, all parameters 0. *)
Definition zero_model : ImprovedMTAN :=
  mkImprovedMTAN (nn_Linear 1 1 zero_linear_init) [] (nn_Linear 1 1 zero_linear_init).

(** A run used as an example of [train_model], on one observation: the
    model returns 0 (as the all-zero model does), the loss of one output
    against one observation is their squared difference over 1 (with a
    single term neither a reduction order nor broadcasting arises), the
    optimizer counts its steps, the scheduler lowers nothing and prints
    nothing.  What the steps do to the parameters plays no part in the
    control flow of the loop. *)
Definition zero_call (_ : unit) (_ x : spec_float) : result spec_float :=
  Ok (S754_zero false).

Definition mse_of_one (output target : spec_float) : result spec_float :=
  let d := f32_sub output target in
  Ok (f32_div (f32_mul d d) (f32_of_nat 1)).

Definition counting_train_model :=
  train_model unit spec_float nat unit unit
    zero_call
    mse_of_one
    (fun _ _ => Ok 0%nat)                    (* Adam *)
    (fun _ _ _ _ => Ok tt)                   (* ReduceLROnPlateau *)
    (fun _ m => m)                           (* zero_grad *)
    (fun m _ _ => m)                         (* backward *)
    (fun opt m => (S opt, m))                (* optimizer.step *)
    (fun p _ opt => (p, opt, [])).           (* the plateau test *)

(** 2^100 and 0.001 (rounded) in float32. *)
Definition f32_2p100 : spec_float := S754_finite false 8388608 77.
Definition f32_lr : spec_float := S754_finite false 8589935 (-33).

(** Example inputs: one series of two observations, at times 0 and 1. *)
Definition example_t : tensor := unsqueeze_first (torch_tensor [0; 1]).
Definition example_x : tensor := unsqueeze_first (torch_tensor [0; 1]).

(** A block of width 2 with 2 heads over inputs of size 1, and its input of
    shape (1, 2, 1). *)
Definition example_block : MultiTimeAttention :=
  mkMultiTimeAttention 2 2 (2 / 2)
    (nn_Linear 1 2 zero_linear_init) (nn_Linear 1 2 zero_linear_init)
    (nn_Linear 1 2 zero_linear_init) (TimeEmbedding_init 2 zero_linear_init).

Definition example_content : tensor := unsqueeze_last example_x.

(* ------------------------------------------------------------------ *)
(** * generate_synthetic_data

    The values drawn by [np.random.uniform(0, 1, n)] and by
    [np.random.normal(0, 0.1, n)] are explicit: [uniform i] and [normal i]
    are the i-th value of each draw. *)

(** [np.sort] on reals, by insertion into a sorted list (every sorting
    routine returns the same list). *)
Fixpoint insert_sorted (a : R) (l : list R) : list R :=
  match l with
  | [] => [a]
  | b :: l' => if Rle_dec a b then a :: l else b :: insert_sorted a l'
  end.

Definition np_sort (l : list R) : list R := fold_right insert_sorted [] l.

Definition generate_synthetic_data (uniform normal : nat -> R) (num_points : nat)
  : list R * list R :=
  let t := np_sort (map uniform (seq 0 num_points)) in
  let noise := map normal (seq 0 num_points) in
  let x := map (fun p => sin (2 * PI * fst p) + snd p) (combine t noise) in
  (t, x).

(** Times in non-decreasing order. *)
Fixpoint non_decreasing (l : list R) : Prop :=
  match l with
  | a :: (b :: _) as l' => a <= b /\ non_decreasing l'
  | _ => True
  end.


(* ================================================================== *)
(** * Properties *)

(** ** Sums *)

Lemma sum_upto_ext (n : nat) (f g : nat -> R) :
  (forall i, (i < n)%nat -> f i = g i) -> sum_upto n f = sum_upto n g.
Proof.
  induction n as [|n IH]; intros E; simpl.
  - reflexivity.
  - rewrite IH, (E n) by (intros; try apply E; lia). reflexivity.
Qed.

Lemma sum_upto_scale (n : nat) (f : nat -> R) (c : R) :
  sum_upto n (fun i => f i * c) = sum_upto n f * c.
Proof.
  induction n as [|n IH]; simpl.
  - ring.
  - rewrite IH. ring.
Qed.

Lemma sum_upto_exp_pos (n : nat) (f : nat -> R) :
  (0 < n)%nat -> 0 < sum_upto n (fun i => exp (f i)).
Proof.
  induction n as [|n IH]; intros Hn.
  - lia.
  - simpl. destruct n as [|n].
    + simpl. pose proof (exp_pos (f 0%nat)). lra.
    + assert (0 < sum_upto (S n) (fun i => exp (f i))) by (apply IH; lia).
      pose proof (exp_pos (f (S n))). lra.
Qed.

(** ** Shapes of the basic operations *)

Lemma shape_eqb_eq (a b : list nat) : shape_eqb a b = true <-> a = b.
Proof.
  revert b. induction a as [|x a IH]; intros [|y b]; simpl; split;
    try discriminate; try reflexivity.
  - intros H. apply andb_true_iff in H. destruct H as [H1 H2].
    apply Nat.eqb_eq in H1. apply IH in H2. congruence.
  - intros H. injection H as -> ->. rewrite Nat.eqb_refl. simpl.
    apply IH. reflexivity.
Qed.

Lemma shape_eqb_refl (a : list nat) : shape_eqb a a = true.
Proof. apply shape_eqb_eq. reflexivity. Qed.

Lemma add_Ok_inv (a b c : tensor) :
  add a b = Ok c ->
  shape a = shape b /\ shape c = shape b /\
  forall idx, data c idx = data a idx + data b idx.
Proof.
  unfold add. destruct (shape_eqb (shape a) (shape b)) eqn:E.
  - apply shape_eqb_eq in E. intros H. injection H as <-. simpl. auto.
  - discriminate.
Qed.

Lemma add_same_shape (a b : tensor) :
  shape a = shape b ->
  add a b = Ok (mkTensor (shape a) (fun idx => data a idx + data b idx)).
Proof.
  intros E. unfold add. rewrite E, shape_eqb_refl, <- E. reflexivity.
Qed.

Lemma view_Ok_inv (sh : list nat) (t v : tensor) :
  view sh t = Ok v -> shape v = sh /\ numel (shape t) = numel sh.
Proof.
  unfold view. destruct (numel (shape t) =? numel sh)%nat eqn:E.
  - intros H. injection H as <-. simpl. split; [reflexivity|].
    apply Nat.eqb_eq. exact E.
  - discriminate.
Qed.

Lemma removelast_snoc {A : Type} (l : list A) (a : A) : removelast (l ++ [a]) = l.
Proof. apply removelast_last. Qed.

Lemma last_snoc {A : Type} (l : list A) (a d : A) : last (l ++ [a]) d = a.
Proof. apply last_last. Qed.

Lemma Linear_forward_snoc (self : Linear) (x : tensor) (sh : list nat) :
  shape x = sh ++ [in_features self] ->
  exists y, Linear_forward self x = Ok y /\
    shape y = sh ++ [out_features self] /\
    forall idx o,
      data y (idx ++ [o]) =
      sum_upto (in_features self) (fun i => data x (idx ++ [i]) * weight self o i)
      + bias self o.
Proof.
  intros E. unfold Linear_forward. rewrite E, rev_app_distr. simpl.
  rewrite Nat.eqb_refl. eexists. split; [reflexivity|]. simpl. split.
  - rewrite removelast_snoc. reflexivity.
  - intros idx o. unfold set_last.
    rewrite removelast_snoc, last_snoc. reflexivity.
Qed.

Lemma Linear_forward_Ok_inv (self : Linear) (x y : tensor) :
  Linear_forward self x = Ok y ->
  shape y = removelast (shape x) ++ [out_features self].
Proof.
  unfold Linear_forward. destruct (rev (shape x)) as [|n r]; [discriminate|].
  destruct (n =? in_features self)%nat; [|discriminate].
  intros H. injection H as <-. reflexivity.
Qed.

(* ------------------------------------------------------------------ *)
(** ** TimeEmbedding *)

Lemma TimeEmbedding_forward_spec (d : nat) (theta : LinearInit) (t : tensor) :
  exists y,
    TimeEmbedding_forward (TimeEmbedding_init d theta) t = Ok y /\
    shape y = shape t ++ [d] /\
    forall idx i,
      data y (idx ++ [i]) = cos (init_weight theta i 0%nat * data t idx + init_bias theta i).
Proof.
  unfold TimeEmbedding_forward, TimeEmbedding_init. simpl.
  destruct (@Linear_forward_snoc (nn_Linear 1 d theta) (unsqueeze_last t) (shape t))
    as [y [Hy [Hs Hd]]]; [reflexivity|].
  rewrite Hy. simpl. eexists. split; [reflexivity|]. simpl. split; [exact Hs|].
  intros idx i. rewrite Hd. simpl. rewrite removelast_snoc. f_equal. ring.
Qed.

(** C6. For every parameter setting and every tensor of times, the time
    embedding succeeds, appends one axis of the configured size [d], and its
    coordinate [i] at a time t is cos(w_i * t + b_i), hence within [-1, 1]. *)
Theorem TimeEmbedding_forward_cos (d : nat) (theta : LinearInit) (t : tensor) :
  exists y,
    TimeEmbedding_forward (TimeEmbedding_init d theta) t = Ok y /\
    dim (TimeEmbedding_init d theta) = d /\
    shape y = shape t ++ [d] /\
    forall idx i,
      data y (idx ++ [i]) = cos (init_weight theta i 0%nat * data t idx + init_bias theta i) /\
      -1 <= data y (idx ++ [i]) <= 1.
Proof.
  destruct (TimeEmbedding_forward_spec d theta t) as [y [Hy [Hs Hd]]].
  exists y. split; [exact Hy|]. split; [reflexivity|]. split; [exact Hs|].
  intros idx i. rewrite Hd. split; [reflexivity | apply COS_bound].
Qed.

(* ------------------------------------------------------------------ *)
(** ** MultiTimeAttention *)

Lemma split_heads_Ok_inv (self : MultiTimeAttention) (B L : nat) (y y' : tensor) :
  split_heads self B L y = Ok y' ->
  shape y' = [B; num_heads self; L; head_dim self].
Proof.
  unfold split_heads. intros H. inv_bind H.
  apply view_Ok_inv in Ha. destruct Ha as [Hs _].
  injection H as <-. simpl. rewrite Hs. reflexivity.
Qed.

Lemma div_mod_block (n q r : nat) :
  (r < n)%nat -> ((q * n + r) / n = q /\ (q * n + r) mod n = r)%nat.
Proof.
  intros Hr. split.
  - symmetry. apply (Nat.div_unique (q * n + r) n q r); lia.
  - symmetry. apply (Nat.mod_unique (q * n + r) n q r); lia.
Qed.

(** The reshape into heads slices the last axis: head h holds the
    coordinates h * head_dim, ..., h * head_dim + head_dim - 1. *)
Lemma split_heads_slices (self : MultiTimeAttention) (B L : nat) (y y' : tensor) :
  shape y = [B; L; num_heads self * head_dim self]%nat ->
  split_heads self B L y = Ok y' ->
  forall b l h d,
    (l < L)%nat -> (h < num_heads self)%nat -> (d < head_dim self)%nat ->
    data y' [b; h; l; d] = data y [b; l; (h * head_dim self + d)%nat].
Proof.
  intros Hy H b l h d Hl Hh Hd.
  unfold split_heads in H. inv_bind H. injection H as <-.
  unfold view in Ha. rewrite Hy in Ha.
  destruct (numel _ =? numel _)%nat; [|discriminate]. injection Ha as <-.
  cbn [transpose data swap length seq map nth Nat.eqb].
  f_equal. cbn [ravel unravel numel fold_right].
  set (H_ := num_heads self) in *. set (D := head_dim self) in *.
  rewrite !Nat.mul_1_r, Nat.add_0_r.
  assert (R1 : (h * D + d < H_ * D)%nat) by nia.
  assert (R2 : (l * (H_ * D) + (h * D + d) < L * (H_ * D))%nat) by nia.
  destruct (div_mod_block (L * (H_ * D)) b (l * (H_ * D) + (h * D + d)) R2) as [E1 E2].
  destruct (div_mod_block (H_ * D) l (h * D + d) R1) as [E3 E4].
  rewrite E1, E2, E3, E4. do 3 f_equal.
  exact (Nat.div_1_r (h * D + d)).
Qed.

(** The four streams leave the reshape with one shape,
    (B, num_heads, L, head_dim). *)
Lemma heads_shapes (self : MultiTimeAttention) (x t : tensor) (hs : heads) :
  MultiTimeAttention_heads self x t = Ok hs ->
  exists B L n,
    shape x = [B; L; n] /\
    shape (hq hs) = [B; num_heads self; L; head_dim self] /\
    shape (hk hs) = [B; num_heads self; L; head_dim self] /\
    shape (hv hs) = [B; num_heads self; L; head_dim self] /\
    shape (hte hs) = [B; num_heads self; L; head_dim self].
Proof.
  unfold MultiTimeAttention_heads.
  destruct (shape x) as [|B [|L [|n [|? ?]]]]; try discriminate.
  intros H. do 8 inv_bind H. injection H as <-. simpl.
  exists B, L, n. repeat split; eauto using split_heads_Ok_inv.
Qed.

(** One score tensor: [matmul(q, k^T) / c] on two (B, H, L, D) streams. *)
Lemma scaled_scores (q k : tensor) (B H L D : nat) (c : R) :
  shape q = [B; H; L; D] -> shape k = [B; H; L; D] ->
  exists s,
    matmul q (transpose_last k) = Ok s /\
    shape (div_scalar s c) = [B; H; L; L] /\
    forall b h i j,
      data (div_scalar s c) [b; h; i; j] =
      sum_upto D (fun d => data q [b; h; i; d] * data k [b; h; j; d]) / c.
Proof.
  intros Hq Hk. unfold matmul, transpose_last, transpose. rewrite Hq, Hk. simpl.
  rewrite !Nat.eqb_refl. simpl. eexists. split; [reflexivity|]. simpl.
  split; reflexivity.
Qed.

(** The logits of a block: both score tensors exist, have the shape
    (B, num_heads, L, L), and are added entry by entry. *)
Lemma logits_spec (self : MultiTimeAttention) (x t : tensor) (hs : heads) :
  MultiTimeAttention_heads self x t = Ok hs ->
  exists B L n c s a,
    shape x = [B; L; n] /\
    content_scores self hs = Ok c /\
    time_scores self hs = Ok s /\
    add c s = Ok a /\
    shape a = [B; num_heads self; L; L] /\
    forall b h i j,
      data c [b; h; i; j] =
        sum_upto (head_dim self) (fun d => data (hq hs) [b; h; i; d] * data (hk hs) [b; h; j; d])
        / sqrt (INR (head_dim self)) /\
      data s [b; h; i; j] =
        sum_upto (head_dim self) (fun d => data (hq hs) [b; h; i; d] * data (hte hs) [b; h; j; d])
        / sqrt (INR (head_dim self)) /\
      data a [b; h; i; j] = data c [b; h; i; j] + data s [b; h; i; j].
Proof.
  intros Hh. apply heads_shapes in Hh.
  destruct Hh as [B [L [n [Hx [Hq [Hk [_ Ht]]]]]]].
  destruct (@scaled_scores (hq hs) (hk hs) _ _ _ _ (sqrt (INR (head_dim self))) Hq Hk) as [c [Hc [Hcs Hcd]]].
  destruct (@scaled_scores (hq hs) (hte hs) _ _ _ _ (sqrt (INR (head_dim self))) Hq Ht) as [s [Hs [Hss Hsd]]].
  pose proof (@add_same_shape (div_scalar c (sqrt (INR (head_dim self))))
                              (div_scalar s (sqrt (INR (head_dim self))))) as Ha.
  rewrite Hcs, Hss in Ha. specialize (Ha eq_refl).
  exists B, L, n. do 3 eexists.
  unfold content_scores, time_scores. rewrite Hc, Hs. simpl.
  split; [exact Hx|]. split; [reflexivity|]. split; [reflexivity|].
  split; [exact Ha|]. simpl. split; [reflexivity|].
  intros b h i j. repeat split.
  - apply Hcd.
  - apply Hsd.
Qed.



(* ------------------------------------------------------------------ *)
(** ** ImprovedMTAN *)

Lemma residual_stack_app (pre post : list MultiTimeAttention) (x t : tensor) :
  residual_stack (pre ++ post) x t =
  (x' <- residual_stack pre x t ;; residual_stack post x' t).
Proof.
  revert x. induction pre as [|layer pre IH]; intros x; simpl.
  - reflexivity.
  - destruct (MultiTimeAttention_forward layer x t) as [y|e]; simpl; [|reflexivity].
    destruct (add y x) as [x'|e]; simpl; [apply IH | reflexivity].
Qed.

Lemma residual_stack_shape (layers : list MultiTimeAttention) (x t out : tensor) :
  residual_stack layers x t = Ok out -> shape out = shape x.
Proof.
  revert x. induction layers as [|layer layers IH]; intros x; simpl; intros H.
  - injection H as <-. reflexivity.
  - do 2 inv_bind H. apply IH in H. apply add_Ok_inv in Ha0.
    destruct Ha0 as [_ [E _]]. congruence.
Qed.

Lemma mapM_Ok_length {A B : Type} (f : A -> result B) (l : list A) (bs : list B) :
  mapM f l = Ok bs -> length bs = length l.
Proof.
  revert bs. induction l as [|a l IH]; simpl; intros bs H.
  - injection H as <-. reflexivity.
  - do 2 inv_bind H. injection H as <-. simpl. f_equal. apply IH. exact Ha1.
Qed.

(** What the constructor fixes: the two projections and the number of
    blocks. *)
Lemma ImprovedMTAN_init_Ok_inv (input_dim hidden_dim heads_ num_layers : nat)
  (theta : ModelInit) (model : ImprovedMTAN) :
  ImprovedMTAN_init input_dim hidden_dim heads_ num_layers theta = Ok model ->
  input_proj model = nn_Linear input_dim hidden_dim (input_proj_init theta) /\
  fc model = nn_Linear hidden_dim 1 (fc_init theta) /\
  length (attention_layers model) = num_layers.
Proof.
  unfold ImprovedMTAN_init. intros H. inv_bind H. injection H as <-. simpl.
  apply mapM_Ok_length in Ha. rewrite length_seq in Ha. auto.
Qed.

Lemma projection_only_value (hidden_dim : nat) (theta : ModelInit)
  (layers : list MultiTimeAttention) (x : tensor) :
  exists out,
    projection_only (mkImprovedMTAN (nn_Linear 1 hidden_dim (input_proj_init theta)) layers
                       (nn_Linear hidden_dim 1 (fc_init theta))) x = Ok out /\
    shape out = shape x /\
    forall idx,
      data out idx =
      sum_upto hidden_dim
        (fun k => (init_weight (input_proj_init theta) k 0%nat * data x idx
                   + init_bias (input_proj_init theta) k)
                  * init_weight (fc_init theta) 0%nat k)
      + init_bias (fc_init theta) 0%nat.
Proof.
  unfold projection_only. simpl.
  destruct (@Linear_forward_snoc (nn_Linear 1 hidden_dim (input_proj_init theta))
              (unsqueeze_last x) (shape x)) as [h [Hh [Hhs Hhd]]]; [reflexivity|].
  rewrite Hh. simpl.
  destruct (@Linear_forward_snoc (nn_Linear hidden_dim 1 (fc_init theta)) h (shape x))
    as [y [Hy [Hys Hyd]]]; [exact Hhs|].
  rewrite Hy. simpl. unfold squeeze_last. rewrite Hys, last_snoc. simpl.
  eexists. split; [reflexivity|]. simpl. split; [apply removelast_snoc|].
  intros idx. rewrite Hyd. simpl. f_equal.
  apply sum_upto_ext. intros k _. rewrite Hhd. simpl.
  rewrite removelast_snoc. ring.
Qed.

(** C8. With no attention block the forward pass is the output projection
    after the input projection at each position and ignores the timestamps;
    with blocks, every block's output is added to that block's input, the
    shape stays the same at every depth, and the forward pass returns the
    output projection of what the last block leaves. *)
Theorem residual_stacking (input_dim hidden_dim heads_ num_layers : nat)
  (theta : ModelInit) (model : ImprovedMTAN) (t x : tensor) :
  ImprovedMTAN_init input_dim hidden_dim heads_ num_layers theta = Ok model ->
  (num_layers = 0%nat ->
     ImprovedMTAN_forward model t x = projection_only model x /\
     (forall t', ImprovedMTAN_forward model t' x = ImprovedMTAN_forward model t x) /\
     (input_dim = 1%nat ->
        exists out,
          ImprovedMTAN_forward model t x = Ok out /\
          shape out = shape x /\
          forall idx,
            data out idx =
            sum_upto hidden_dim
              (fun k => (init_weight (input_proj_init theta) k 0%nat * data x idx
                         + init_bias (input_proj_init theta) k)
                        * init_weight (fc_init theta) 0%nat k)
            + init_bias (fc_init theta) 0%nat))
  /\
  (forall h0 out pre layer post,
     Linear_forward (input_proj model) (unsqueeze_last x) = Ok h0 ->
     attention_layers model = pre ++ layer :: post ->
     residual_stack (attention_layers model) h0 t = Ok out ->
     exists xin y xout,
       residual_stack pre h0 t = Ok xin /\
       MultiTimeAttention_forward layer xin t = Ok y /\
       add y xin = Ok xout /\
       (forall idx, data xout idx = data y idx + data xin idx) /\
       shape y = shape xin /\
       shape xin = shape h0 /\
       shape xout = shape h0 /\
       residual_stack post xout t = Ok out /\
       shape out = shape h0 /\
       exists yfc,
         Linear_forward (fc model) out = Ok yfc /\
         ImprovedMTAN_forward model t x = Ok (squeeze_last yfc)).
Proof.
  intros Hinit. split.
  - intros ->. unfold ImprovedMTAN_init in Hinit. simpl in Hinit.
    injection Hinit as <-.
    assert (F : forall t0, ImprovedMTAN_forward
                 (mkImprovedMTAN (nn_Linear input_dim hidden_dim (input_proj_init theta)) []
                    (nn_Linear hidden_dim 1 (fc_init theta))) t0 x
               = projection_only
                   (mkImprovedMTAN (nn_Linear input_dim hidden_dim (input_proj_init theta)) []
                      (nn_Linear hidden_dim 1 (fc_init theta))) x).
    { intros t0. unfold ImprovedMTAN_forward, projection_only. simpl.
      destruct (Linear_forward _ (unsqueeze_last x)); reflexivity. }
    split; [apply F|]. split.
    + intros t'. rewrite !F. reflexivity.
    + intros ->. rewrite F. apply projection_only_value.
  - intros h0 out pre layer post Hh0 Hl Hr.
    destruct (ImprovedMTAN_init_Ok_inv _ _ _ _ _ _ Hinit) as [Hip [Hfc _]].
    pose proof (residual_stack_shape _ _ _ _ Hr) as S0.
    pose proof (Linear_forward_Ok_inv _ _ _ Hh0) as Sh0.
    rewrite Hip in Sh0. simpl in Sh0. rewrite removelast_snoc in Sh0.
    assert (So : shape out = shape x ++ [in_features (fc model)]).
    { rewrite Hfc. simpl. congruence. }
    destruct (Linear_forward_snoc (fc model) out (shape x) So) as [yfc [Hy _]].
    assert (Hf : ImprovedMTAN_forward model t x = Ok (squeeze_last yfc)).
    { unfold ImprovedMTAN_forward. rewrite Hh0. cbn [bind]. rewrite Hr. cbn [bind].
      rewrite Hy. reflexivity. }
    rewrite Hl in Hr.
    rewrite residual_stack_app in Hr. inv_bind Hr. simpl in Hr.
    do 2 inv_bind Hr.
    pose proof (residual_stack_shape _ _ _ _ Ha) as S1.
    pose proof (residual_stack_shape _ _ _ _ Hr) as S2.
    destruct (add_Ok_inv _ _ _ Ha1) as [E1 [E2 E3]].
    exists a, a0, a1.
    split; [exact Ha|]. split; [exact Ha0|]. split; [exact Ha1|].
    split; [exact E3|]. split; [congruence|]. split; [exact S1|].
    split; [congruence|]. split; [exact Hr|]. split; [congruence|].
    exists yfc. split; [exact Hy | exact Hf].
Qed.

(* ------------------------------------------------------------------ *)
(** ** Head count that does not divide the width *)

Lemma MultiTimeAttention_init_Ok (input_dim e h : nat) (theta : AttentionInit) :
  h <> 0%nat ->
  MultiTimeAttention_init input_dim e h theta =
  Ok (mkMultiTimeAttention e h (e / h)
        (nn_Linear input_dim e (q_init theta))
        (nn_Linear input_dim e (k_init theta))
        (nn_Linear input_dim e (v_init theta))
        (TimeEmbedding_init e (te_init theta))).
Proof.
  intros Hh. unfold MultiTimeAttention_init.
  destruct h; [contradiction | reflexivity].
Qed.

Lemma mapM_total {A B : Type} (f : A -> result B) (g : A -> B) (l : list A) :
  (forall a, f a = Ok (g a)) -> mapM f l = Ok (map g l).
Proof.
  intros E. induction l as [|a l IH]; simpl.
  - reflexivity.
  - rewrite E, IH. reflexivity.
Qed.

Lemma ImprovedMTAN_init_Ok (input_dim hidden_dim heads_ num_layers : nat)
  (theta : ModelInit) :
  heads_ <> 0%nat ->
  ImprovedMTAN_init input_dim hidden_dim heads_ num_layers theta =
  Ok (mkImprovedMTAN
        (nn_Linear input_dim hidden_dim (input_proj_init theta))
        (map (fun i =>
                mkMultiTimeAttention hidden_dim heads_ (hidden_dim / heads_)
                  (nn_Linear hidden_dim hidden_dim (q_init (layers_init theta i)))
                  (nn_Linear hidden_dim hidden_dim (k_init (layers_init theta i)))
                  (nn_Linear hidden_dim hidden_dim (v_init (layers_init theta i)))
                  (TimeEmbedding_init hidden_dim (te_init (layers_init theta i))))
             (seq 0 num_layers))
        (nn_Linear hidden_dim 1 (fc_init theta))).
Proof.
  intros Hh. unfold ImprovedMTAN_init.
  erewrite mapM_total; [reflexivity|].
  intros i. apply MultiTimeAttention_init_Ok. exact Hh.
Qed.

(** A block whose head count does not divide its width fails at the reshape
    of q, on any non-empty input. *)
Lemma indivisible_block_fails (e h : nat) (theta : AttentionInit) (x t : tensor)
  (B L : nat) :
  (e mod h <> 0)%nat ->
  shape x = [B; L; e] ->
  (1 <= B * L)%nat ->
  MultiTimeAttention_forward
    (mkMultiTimeAttention e h (e / h)
       (nn_Linear e e (q_init theta)) (nn_Linear e e (k_init theta))
       (nn_Linear e e (v_init theta)) (TimeEmbedding_init e (te_init theta))) x t
  = Raise (RuntimeError InvalidView).
Proof.
  intros Hmod Hx HBL.
  unfold MultiTimeAttention_forward, MultiTimeAttention_heads. rewrite Hx. simpl.
  destruct (@Linear_forward_snoc (nn_Linear e e (q_init theta)) x [B; L] Hx)
    as [q [Hq [Hqs _]]].
  destruct (@Linear_forward_snoc (nn_Linear e e (k_init theta)) x [B; L] Hx)
    as [k [Hk _]].
  destruct (@Linear_forward_snoc (nn_Linear e e (v_init theta)) x [B; L] Hx)
    as [v [Hv _]].
  destruct (TimeEmbedding_forward_spec e (te_init theta) t) as [te [Hte _]].
  rewrite Hq, Hk, Hv. simpl. rewrite Hte. simpl.
  unfold split_heads, view. simpl. rewrite Hqs. simpl.
  assert (N : (B * (L * (e * 1)) =? B * (L * (h * (e / h * 1))))%nat = false).
  { apply Nat.eqb_neq. pose proof (Nat.div_mod_eq e h). nia. }
  rewrite N. reflexivity.
Qed.

(** C2 (as the code has it). A head count that does not divide the width is
    not rejected by the constructor: the model is built.  The configuration
    fails only inside a forward pass through at least one block on a
    non-empty input, at the reshape into heads; with no block the forward
    pass succeeds. *)
Theorem indivisible_heads_fail_in_forward
  (hidden_dim heads_ num_layers : nat) (theta : ModelInit) :
  heads_ <> 0%nat ->
  (hidden_dim mod heads_ <> 0)%nat ->
  exists model,
    ImprovedMTAN_init 1 hidden_dim heads_ num_layers theta = Ok model /\
    (forall t x B L,
       (1 <= num_layers)%nat -> shape x = [B; L] -> (1 <= B * L)%nat ->
       ImprovedMTAN_forward model t x = Raise (RuntimeError InvalidView)) /\
    (forall t x,
       num_layers = 0%nat -> exists out, ImprovedMTAN_forward model t x = Ok out).
Proof.
  intros Hh Hmod. eexists. split; [apply ImprovedMTAN_init_Ok; exact Hh|]. split.
  - intros t x B L Hn Hx HBL.
    destruct num_layers as [|n]; [lia|]. unfold ImprovedMTAN_forward. simpl.
    destruct (@Linear_forward_snoc (nn_Linear 1 hidden_dim (input_proj_init theta))
                (unsqueeze_last x) [B; L]) as [h0 [Hh0 [Hs0 _]]].
    { simpl. rewrite Hx. reflexivity. }
    rewrite Hh0. simpl.
    rewrite (@indivisible_block_fails hidden_dim heads_ (layers_init theta 0%nat)
               h0 t B L Hmod Hs0 HBL).
    reflexivity.
  - intros t x ->. simpl.
    destruct (projection_only_value hidden_dim theta [] x) as [out [Ho _]].
    exists out. rewrite <- Ho. unfold ImprovedMTAN_forward, projection_only. simpl.
    destruct (Linear_forward _ (unsqueeze_last x)); reflexivity.
Qed.

Lemma indivisible_heads_fail_in_forward_witness :
  exists model,
    ImprovedMTAN_init 1 10 3 2 zero_model_init = Ok model /\
    (forall t x B L,
       (1 <= 2)%nat -> shape x = [B; L] -> (1 <= B * L)%nat ->
       ImprovedMTAN_forward model t x = Raise (RuntimeError InvalidView)) /\
    (forall t x, 2%nat = 0%nat -> exists out, ImprovedMTAN_forward model t x = Ok out).
Proof.
  apply (@indivisible_heads_fail_in_forward 10 3 2 zero_model_init).
  - discriminate.
  - simpl. discriminate.
Defined.

(** C2 as stated fails: width 10 with 3 heads is accepted by the
    constructor, and with no block the forward pass runs to its result. *)
Lemma indivisible_config_not_rejected :
  (10 mod 3 <> 0)%nat /\
  (exists model, ImprovedMTAN_init 1 10 3 2 zero_model_init = Ok model) /\
  (exists model out,
     ImprovedMTAN_init 1 10 3 0 zero_model_init = Ok model /\
     ImprovedMTAN_forward model (unsqueeze_first (torch_tensor [0; 1]))
       (unsqueeze_first (torch_tensor [0; 1])) = Ok out).
Proof.
  split; [simpl; discriminate|]. split.
  - eexists. reflexivity.
  - do 2 eexists. split; reflexivity.
Qed.

(* ------------------------------------------------------------------ *)
(** ** numpy.interp on increasing knots *)

Lemma increasing_tail (a : R) (l : list R) :
  strictly_increasing (a :: l) -> strictly_increasing l.
Proof. destruct l as [|b l]; simpl; tauto. Qed.

Lemma increasing_above_head (l : list R) (a : R) (j : nat) (b : R) :
  strictly_increasing (a :: l) -> nth_error (a :: l) j = Some b -> a <= b.
Proof.
  revert a j. induction l as [|c l IH]; intros a j Hinc Hj.
  - destruct j as [|[|j]]; simpl in Hj; try discriminate.
    injection Hj as <-. lra.
  - destruct j as [|j]; simpl in Hj.
    + injection Hj as <-. lra.
    + destruct Hinc as [Hac Hinc]. specialize (IH c j Hinc Hj). lra.
Qed.

Lemma increasing_last_above_head (l : list R) (a : R) :
  strictly_increasing (a :: l) -> a <= last (a :: l) 0.
Proof.
  revert a. induction l as [|c l IH]; intros a Hinc.
  - simpl. lra.
  - destruct Hinc as [Hac Hinc]. specialize (IH c Hinc).
    change (last (a :: c :: l) 0) with (last (c :: l) 0). lra.
Qed.

(** The scan from a knot at or below the query. *)
Lemma interp_from_spec (xp fp : list R) :
  forall x0 f0 q,
    length fp = length xp ->
    strictly_increasing (x0 :: xp) ->
    x0 <= q ->
    (last (x0 :: xp) 0 <= q -> interp_from q x0 f0 xp fp = last (f0 :: fp) 0) /\
    (forall j a fa,
        nth_error (x0 :: xp) j = Some a -> nth_error (f0 :: fp) j = Some fa ->
        q = a -> interp_from q x0 f0 xp fp = fa) /\
    (forall j a b fa fb,
        nth_error (x0 :: xp) j = Some a -> nth_error (x0 :: xp) (S j) = Some b ->
        nth_error (f0 :: fp) j = Some fa -> nth_error (f0 :: fp) (S j) = Some fb ->
        a <= q <= b ->
        interp_from q x0 f0 xp fp = fa + (fb - fa) * (q - a) / (b - a)).
Proof.
  revert fp. induction xp as [|x1 xp IH]; intros fp x0 f0 q Hlen Hinc Hq.
  - destruct fp; [|discriminate]. simpl. repeat split.
    + intros j a fa Ha Hfa _. destruct j as [|[|j]]; simpl in *; try discriminate.
      congruence.
    + intros j a b fa fb _ Hb. destruct j; simpl in Hb; discriminate.
  - destruct fp as [|f1 fp]; [discriminate|]. simpl in Hlen.
    injection Hlen as Hlen.
    pose proof Hinc as [H01 Hinc'].
    cbn [interp_from].
    destruct (Rlt_dec q x1) as [Hlt|Hge].
    + (* the query lies in the first segment *)
      repeat split.
      * intros Hlast. pose proof (increasing_last_above_head _ _ Hinc').
        change (last (x0 :: x1 :: xp) 0) with (last (x1 :: xp) 0) in Hlast. lra.
      * intros j a fa Ha Hfa ->. destruct j as [|j]; simpl in Ha, Hfa.
        -- injection Ha as <-. injection Hfa as <-.
           destruct (Req_dec_T x0 x0); [reflexivity | contradiction].
        -- pose proof (increasing_above_head _ _ _ _ Hinc' Ha). lra.
      * intros j a b fa fb Ha Hb Hfa Hfb Hab. destruct j as [|j]; simpl in Ha, Hb, Hfa, Hfb.
        -- injection Ha as <-. injection Hb as <-.
           injection Hfa as <-. injection Hfb as <-.
           destruct (Req_dec_T q x0) as [->|Hne]; field; lra.
        -- pose proof (increasing_above_head _ _ _ _ Hinc' Ha). lra.
    + (* the scan moves to the next knot *)
      assert (Hq1 : x1 <= q) by lra.
      destruct (IH fp x1 f1 q Hlen Hinc' Hq1) as [IHa [IHc IHb]].
      repeat split.
      * intros Hlast. apply IHa. exact Hlast.
      * intros j a fa Ha Hfa ->. destruct j as [|j]; simpl in Ha, Hfa.
        -- injection Ha as <-. lra.
        -- eapply IHc; eauto.
      * intros j a b fa fb Ha Hb Hfa Hfb Hab. destruct j as [|j].
        -- simpl in Ha, Hb, Hfa, Hfb.
           injection Ha as <-. injection Hb as <-.
           injection Hfa as <-. injection Hfb as <-.
           assert (q = x1) by lra. subst q.
           rewrite (IHc 0%nat x1 f1 eq_refl eq_refl eq_refl). field. lra.
        -- apply (IHb j); assumption.
Qed.

(** [interp_at] computes the piecewise-linear interpolant, and returns the
    observed value at an observed time. *)
Lemma interp_at_spec (xp fp : list R) (q : R) :
  xp <> [] ->
  length fp = length xp ->
  strictly_increasing xp ->
  piecewise_linear xp fp q (interp_at xp fp q) /\
  (forall j fa, nth_error xp j = Some q -> nth_error fp j = Some fa ->
                interp_at xp fp q = fa).
Proof.
  intros Hne Hlen Hinc.
  destruct xp as [|x0 xp]; [contradiction|].
  destruct fp as [|f0 fp]; [discriminate|].
  injection Hlen as Hlen. unfold interp_at.
  destruct (Rlt_dec q x0) as [Hlt|Hge].
  - split; [repeat split|].
    + intros Hlast. pose proof (increasing_last_above_head _ _ Hinc). lra.
    + intros j a b fa fb Ha _ _ _ Hab.
      pose proof (increasing_above_head _ _ _ _ Hinc Ha). lra.
    + intros j fa Ha _. pose proof (increasing_above_head _ _ _ _ Hinc Ha). lra.
  - assert (Hq : x0 <= q) by lra.
    destruct (@interp_from_spec xp fp x0 f0 q Hlen Hinc Hq) as [Ha [Hc Hb]].
    split; [repeat split|].
    + simpl. intros Hle. apply (Hc 0%nat x0 f0); [reflexivity | reflexivity | lra].
    + exact Ha.
    + exact Hb.
    + intros j fa Hj Hfa. apply (Hc j q fa); auto.
Qed.

Lemma np_interp_Ok (x xp fp : list R) :
  xp <> [] -> length fp = length xp ->
  np_interp x xp fp = Ok (map (interp_at xp fp) x).
Proof.
  intros Hne Hlen. unfold np_interp. destruct xp; [contradiction|].
  rewrite Hlen, Nat.eqb_refl. reflexivity.
Qed.

(* ------------------------------------------------------------------ *)
(** ** interpolate *)

(** The forward pass of a constructed model returns a tensor of the shape of
    its input [x]. *)
Lemma ImprovedMTAN_forward_shape (input_dim hidden_dim heads_ num_layers : nat)
  (theta : ModelInit) (model : ImprovedMTAN) (t x out : tensor) :
  ImprovedMTAN_init input_dim hidden_dim heads_ num_layers theta = Ok model ->
  ImprovedMTAN_forward model t x = Ok out ->
  shape out = shape x.
Proof.
  intros Hinit H.
  destruct (ImprovedMTAN_init_Ok_inv _ _ _ _ _ _ Hinit) as [Hip [Hfc _]].
  unfold ImprovedMTAN_forward in H. do 3 inv_bind H. injection H as <-.
  apply Linear_forward_Ok_inv in Ha. apply residual_stack_shape in Ha0.
  apply Linear_forward_Ok_inv in Ha1.
  rewrite Hip in Ha. rewrite Hfc in Ha1. simpl in Ha, Ha1.
  rewrite removelast_snoc in Ha. rewrite Ha0, Ha, removelast_snoc in Ha1.
  unfold squeeze_last. rewrite Ha1, last_snoc. simpl. apply removelast_snoc.
Qed.

(** What a successful call of [interpolate] returns: the squeezed output of
    the model on the resampled input. *)
Lemma interpolate_Ok_inv (t x t_dense : list R) (st : World) (a : tensor) :
  fst (interpolate t x t_dense st) = Ok a ->
  exists x_dense out,
    np_interp t_dense t x = Ok x_dense /\
    length x_dense = length t_dense /\
    ImprovedMTAN_forward (module st) (unsqueeze_first (torch_tensor t_dense))
      (unsqueeze_first (torch_tensor x_dense)) = Ok out /\
    a = squeeze out.
Proof.
  unfold interpolate. cbn [fst]. intros H. inv_bind H.
  unfold interpolate_dense in H. inv_bind H.
  unfold call_model in Ha1. inv_bind Ha1. injection Ha1 as <-.
  simpl in H. injection H as <-.
  exists a0, a2. repeat split; try assumption.
  unfold np_interp in Ha0. destruct t; [discriminate|].
  destruct (length x =? length (r :: t))%nat; [|discriminate].
  injection Ha0 as <-. apply length_map.
Qed.

Lemma interpolate_shape (input_dim hidden_dim heads_ num_layers : nat)
  (theta : ModelInit) (t x t_dense : list R) (st : World) (a : tensor) :
  ImprovedMTAN_init input_dim hidden_dim heads_ num_layers theta = Ok (module st) ->
  fst (interpolate t x t_dense st) = Ok a ->
  shape a = if (length t_dense =? 1)%nat then [] else [length t_dense].
Proof.
  intros Hinit H. apply interpolate_Ok_inv in H.
  destruct H as (xd & out & _ & Hlen & Hf & ->).
  apply (ImprovedMTAN_forward_shape _ _ _ _ _ _ _ _ _ Hinit) in Hf.
  simpl in Hf. simpl. rewrite Hf, Hlen. simpl.
  destruct (length t_dense =? 1)%nat; reflexivity.
Qed.

(** The result has one entry per query time for every grid of length other
    than 1. *)
Lemma interpolate_length (input_dim hidden_dim heads_ num_layers : nat)
  (theta : ModelInit) (t x t_dense : list R) (st : World) (a : tensor) :
  ImprovedMTAN_init input_dim hidden_dim heads_ num_layers theta = Ok (module st) ->
  length t_dense <> 1%nat ->
  fst (interpolate t x t_dense st) = Ok a ->
  shape a = [length t_dense].
Proof.
  intros Hinit Hm H.
  rewrite (interpolate_shape _ _ _ _ _ _ _ _ _ _ Hinit H).
  apply Nat.eqb_neq in Hm. rewrite Hm. reflexivity.
Qed.

(** C5 (where the code departs from it). On a grid of one query time the
    result of [interpolate] is a 0-dimensional array, not a sequence of
    length 1: [squeeze()] drops the time axis together with the batch axis. *)
Theorem interpolate_single_query_is_0d (input_dim hidden_dim heads_ num_layers : nat)
  (theta : ModelInit) (t x : list R) (q : R) (st : World) (a : tensor) :
  ImprovedMTAN_init input_dim hidden_dim heads_ num_layers theta = Ok (module st) ->
  fst (interpolate t x [q] st) = Ok a ->
  shape a = [] /\ shape a <> [length [q]].
Proof.
  intros Hinit H.
  rewrite (interpolate_shape _ _ _ _ _ _ _ _ _ _ Hinit H). simpl.
  split; [reflexivity | discriminate].
Qed.

Lemma interpolate_single_query_is_0d_witness :
  exists a,
    fst (interpolate [0; 1] [0; 1] [/ 2] (mkWorld true zero_model)) = Ok a /\
    shape a = [] /\ shape a <> [length [/ 2]].
Proof.
  eexists. split; [reflexivity|].
  apply (interpolate_single_query_is_0d 1 1 1 0 zero_model_init [0; 1] [0; 1] (/ 2)
           (mkWorld true zero_model)); reflexivity.
Defined.

(** C3. For strictly increasing observed times, the input that
    [interpolate] feeds to the model at each query time is the value of the
    piecewise-linear interpolant of the observed points, clamped to the first
    and last observed value outside their range; at an observed time it is
    the observed value itself. *)
Theorem interpolate_input_piecewise_linear (t x t_dense : list R) (st : World) :
  strictly_increasing t ->
  t <> [] ->
  length x = length t ->
  exists x_dense,
    np_interp t_dense t x = Ok x_dense /\
    fst (interpolate t x t_dense st) =
      interpolate_dense (set_grad_enabled false st) t_dense x_dense /\
    length x_dense = length t_dense /\
    forall i q,
      nth_error t_dense i = Some q ->
      exists v,
        nth_error x_dense i = Some v /\
        piecewise_linear t x q v /\
        (forall j xj, nth_error t j = Some q -> nth_error x j = Some xj -> v = xj).
Proof.
  intros Hinc Hne Hlen.
  exists (map (interp_at t x) t_dense).
  pose proof (np_interp_Ok t_dense t x Hne Hlen) as Hnp.
  split; [exact Hnp|]. split.
  - unfold interpolate. simpl. rewrite Hnp. reflexivity.
  - split; [apply length_map|].
    intros i q Hq. exists (interp_at t x q). split.
    + rewrite nth_error_map, Hq. reflexivity.
    + destruct (interp_at_spec t x q Hne Hlen Hinc) as [Hpl Hid].
      split; [exact Hpl|]. intros j xj Hj Hxj. apply (Hid j xj Hj Hxj).
Qed.

Lemma interpolate_input_piecewise_linear_witness :
  exists x_dense,
    np_interp [/ 2; 1] [0; 1] [0; 1] = Ok x_dense /\
    fst (interpolate [0; 1] [0; 1] [/ 2; 1] (mkWorld true zero_model)) =
      interpolate_dense (set_grad_enabled false (mkWorld true zero_model)) [/ 2; 1] x_dense /\
    length x_dense = length [/ 2; 1] /\
    forall i q,
      nth_error [/ 2; 1] i = Some q ->
      exists v,
        nth_error x_dense i = Some v /\
        piecewise_linear [0; 1] [0; 1] q v /\
        (forall j xj, nth_error [0; 1] j = Some q -> nth_error [0; 1] j = Some xj -> v = xj).
Proof.
  apply (interpolate_input_piecewise_linear [0; 1] [0; 1] [/ 2; 1] (mkWorld true zero_model)).
  - simpl. split; [lra | exact I].
  - discriminate.
  - reflexivity.
Defined.

(** Without [no_grad] the last line of [interpolate] would fail whenever
    the ambient grad mode is on. *)
Lemma interpolate_dense_tracked (m : ImprovedMTAN) (t_dense x_dense : list R) (out : tensor) :
  ImprovedMTAN_forward m (unsqueeze_first (torch_tensor t_dense))
    (unsqueeze_first (torch_tensor x_dense)) = Ok out ->
  interpolate_dense (mkWorld true m) t_dense x_dense = Raise (RuntimeError RequiresGrad).
Proof.
  intros H. unfold interpolate_dense, call_model. simpl. rewrite H. reflexivity.
Qed.

(** C9. A call of [interpolate] leaves the parameters of the model as they
    were and restores the grad mode; inside the call the output of the model
    is not tracked by autograd, so that it converts to a numpy array. *)
Theorem interpolate_preserves_parameters (t x t_dense : list R) (st : World) :
  module (snd (interpolate t x t_dense st)) = module st /\
  snd (interpolate t x t_dense st) = st /\
  (forall tt xt out,
     call_model (set_grad_enabled false st) tt xt = Ok out ->
     requires_grad out = false) /\
  (forall x_dense out,
     ImprovedMTAN_forward (module st) (unsqueeze_first (torch_tensor t_dense))
       (unsqueeze_first (torch_tensor x_dense)) = Ok out ->
     interpolate_dense (set_grad_enabled false st) t_dense x_dense = Ok (squeeze out)).
Proof.
  destruct st as [g m]. unfold interpolate, set_grad_enabled. simpl.
  split; [reflexivity|]. split; [reflexivity|]. split.
  - intros tt xt out H. unfold call_model in H. simpl in H.
    inv_bind H. injection H as <-. reflexivity.
  - intros xd out H. unfold interpolate_dense, call_model. simpl.
    rewrite H. reflexivity.
Qed.


(* ------------------------------------------------------------------ *)
(** ** train_model *)

Lemma progress_lines_app {L : Type} (a b : list (line L)) :
  progress_lines (a ++ b) = progress_lines a ++ progress_lines b.
Proof. unfold progress_lines. apply flat_map_app. Qed.

Lemma progress_lines_scheduler {L : Type} (printed : list L) :
  progress_lines (map FromScheduler printed) = [].
Proof.
  induction printed as [|l printed IH]; [reflexivity | exact IH].
Qed.

Section TrainerFacts.

Variables Module_ Tensor_ Optimizer Plateau SchedulerLine : Type.
Variable call : Module_ -> Tensor_ -> Tensor_ -> result Tensor_.
Variable MSELoss : Tensor_ -> Tensor_ -> result spec_float.
Variable zero_grad : Optimizer -> Module_ -> Module_.
Variable backward : Module_ -> Tensor_ -> Tensor_ -> Module_.
Variable optimizer_step : Optimizer -> Module_ -> Optimizer * Module_.
Variable plateau_step :
  Plateau -> spec_float -> Optimizer -> Plateau * Optimizer * list SchedulerLine.

Let State := TrainState Module_ Optimizer Plateau SchedulerLine.
Let loop := train_loop Module_ Tensor_ Optimizer Plateau SchedulerLine call MSELoss
              zero_grad backward optimizer_step plateau_step.
Let body := epoch_body Module_ Tensor_ Optimizer Plateau SchedulerLine call MSELoss
              zero_grad backward optimizer_step plateau_step.
Let epoch_count (s : State) : nat := last_epoch Plateau (scheduler _ _ _ _ s).
Let printed_by (s : State) := progress_lines (stdout _ _ _ _ s).

Variables t x : Tensor_.

(** The forward pass and the loss return. *)
Hypothesis call_returns :
  forall m, exists out loss, call m t x = Ok out /\ MSELoss out x = Ok loss.

(** One iteration returns whatever the loss is, advances the scheduler's
    epoch counter by one, and prints its progress line on every 1000th
    epoch. *)
Lemma epoch_body_spec (epochs epoch : nat) (s : State) :
  exists s' loss,
    body t x epochs epoch s = Ok s' /\
    epoch_count s' = S (epoch_count s) /\
    (exists m out, call m t x = Ok out /\ MSELoss out x = Ok loss) /\
    printed_by s' =
      printed_by s ++
      (if (S epoch mod 1000 =? 0)%nat then [(S epoch, epochs, loss)] else []).
Proof.
  unfold body, epoch_body, epoch_count, printed_by.
  destruct (call_returns (zero_grad (optimizer _ _ _ _ s) (trained _ _ _ _ s)))
    as (out & loss & Hc & Hl).
  rewrite Hc. cbn [bind]. rewrite Hl. cbn [bind].
  destruct (optimizer_step _ _) as [opt m].
  unfold scheduler_step.
  destruct (plateau_step _ loss opt) as [[p opt'] printed].
  eexists. exists loss. split; [reflexivity|]. cbn [scheduler stdout last_epoch].
  split; [reflexivity|]. split; [eexists; eexists; split; eassumption|].
  rewrite Nat.add_1_r.
  destruct (S epoch mod 1000 =? 0)%nat.
  - rewrite !progress_lines_app, progress_lines_scheduler, app_nil_r. reflexivity.
  - rewrite progress_lines_app, progress_lines_scheduler, !app_nil_r. reflexivity.
Qed.

Lemma train_loop_spec (epochs n a : nat) (s : State) :
  exists s' l,
    loop t x epochs (seq a n) s = Ok s' /\
    epoch_count s' = (epoch_count s + n)%nat /\
    printed_by s' = printed_by s ++ l /\
    map (fun p => fst (fst p)) l =
      filter (fun e => (e mod 1000 =? 0)%nat) (seq (S a) n) /\
    Forall (fun p => snd (fst p) = epochs /\
                     exists m out, call m t x = Ok out /\ MSELoss out x = Ok (snd p)) l.
Proof.
  revert a s. induction n as [|n IH]; intros a s.
  - exists s, []. split; [reflexivity|]. split; [apply plus_n_O|].
    split; [symmetry; apply app_nil_r|]. split; [reflexivity | constructor].
  - change (loop t x epochs (seq a (S n)) s)
      with (s' <- body t x epochs a s ;; loop t x epochs (seq (S a) n) s').
    destruct (epoch_body_spec epochs a s) as (s1 & loss & H1 & C1 & HP & O1).
    rewrite H1. cbn [bind].
    destruct (IH (S a) s1) as (s2 & l2 & H2 & C2 & O2 & M2 & F2).
    exists s2.
    exists ((if (S a mod 1000 =? 0)%nat then [(S a, epochs, loss)] else []) ++ l2).
    split; [exact H2|]. split; [rewrite C2, C1; lia|].
    split; [rewrite O2, O1, app_assoc; reflexivity|].
    cbn [seq filter].
    destruct (S a mod 1000 =? 0)%nat.
    + split.
      * cbn [app map fst]. rewrite M2. reflexivity.
      * constructor; [split; [reflexivity | exact HP] | exact F2].
    + split; [exact M2 | exact F2].
Qed.

End TrainerFacts.

(** The run of [train_model] once both constructors have accepted their
    arguments. *)
Lemma train_model_spec
  (Module_ Tensor_ Optimizer Plateau SchedulerLine : Type)
  (call : Module_ -> Tensor_ -> Tensor_ -> result Tensor_)
  (MSELoss : Tensor_ -> Tensor_ -> result spec_float)
  (Adam : Module_ -> spec_float -> result Optimizer)
  (ReduceLROnPlateau : Optimizer -> nat -> spec_float -> bool -> result Plateau)
  (zero_grad : Optimizer -> Module_ -> Module_)
  (backward : Module_ -> Tensor_ -> Tensor_ -> Module_)
  (optimizer_step : Optimizer -> Module_ -> Optimizer * Module_)
  (plateau_step :
     Plateau -> spec_float -> Optimizer -> Plateau * Optimizer * list SchedulerLine)
  (model : Module_) (t x : Tensor_) (epochs : nat) (lr : spec_float)
  (opt : Optimizer) (p : Plateau) :
  SFleb (S754_zero false) lr = true ->
  Adam model lr = Ok opt ->
  ReduceLROnPlateau opt 100%nat f32_half true = Ok p ->
  (forall m, exists out loss, call m t x = Ok out /\ MSELoss out x = Ok loss) ->
  exists s,
    train_model Module_ Tensor_ Optimizer Plateau SchedulerLine call MSELoss Adam
      ReduceLROnPlateau zero_grad backward optimizer_step plateau_step
      model t x epochs lr = Ok s /\
    last_epoch Plateau (scheduler _ _ _ _ s) = epochs /\
    map (fun q => fst (fst q)) (progress_lines (stdout _ _ _ _ s)) =
      filter (fun e => (e mod 1000 =? 0)%nat) (seq 1 epochs) /\
    Forall (fun q => snd (fst q) = epochs /\
                     exists m out, call m t x = Ok out /\ MSELoss out x = Ok (snd q))
           (progress_lines (stdout _ _ _ _ s)).
Proof.
  intros Hlr HA HR Hcall.
  unfold train_model, Adam_init, Scheduler_init.
  rewrite Hlr, HA. cbn [bind]. rewrite HR. cbn [bind].
  destruct (train_loop_spec Module_ Tensor_ Optimizer Plateau SchedulerLine call MSELoss
              zero_grad backward optimizer_step plateau_step t x Hcall epochs epochs 0
              (mkTrainState _ _ _ _ model opt (mkScheduler _ 0 p) []))
    as (s & l & Hs & Hc & Ho & Hm & Hf).
  exists s. split; [exact Hs|]. split; [exact Hc|].
  cbn [stdout progress_lines flat_map app] in Ho. rewrite Ho.
  split; [exact Hm | exact Hf].
Qed.

(** C4 (as the code has it). [train_model] has no test on the loss: once
    Adam has accepted the learning rate and both constructors have returned,
    and as long as the forward pass and the loss return, the run goes through
    all [epochs] iterations (the scheduler has then counted [epochs] steps)
    and returns normally, whatever the losses are, finite or not. *)
Theorem train_model_runs_all_epochs
  (Module_ Tensor_ Optimizer Plateau SchedulerLine : Type)
  (call : Module_ -> Tensor_ -> Tensor_ -> result Tensor_)
  (MSELoss : Tensor_ -> Tensor_ -> result spec_float)
  (Adam : Module_ -> spec_float -> result Optimizer)
  (ReduceLROnPlateau : Optimizer -> nat -> spec_float -> bool -> result Plateau)
  (zero_grad : Optimizer -> Module_ -> Module_)
  (backward : Module_ -> Tensor_ -> Tensor_ -> Module_)
  (optimizer_step : Optimizer -> Module_ -> Optimizer * Module_)
  (plateau_step :
     Plateau -> spec_float -> Optimizer -> Plateau * Optimizer * list SchedulerLine)
  (model : Module_) (t x : Tensor_) (epochs : nat) (lr : spec_float)
  (opt : Optimizer) (p : Plateau) :
  SFleb (S754_zero false) lr = true ->
  Adam model lr = Ok opt ->
  ReduceLROnPlateau opt 100%nat f32_half true = Ok p ->
  (forall m, exists out loss, call m t x = Ok out /\ MSELoss out x = Ok loss) ->
  exists s,
    train_model Module_ Tensor_ Optimizer Plateau SchedulerLine call MSELoss Adam
      ReduceLROnPlateau zero_grad backward optimizer_step plateau_step
      model t x epochs lr = Ok s /\
    last_epoch Plateau (scheduler _ _ _ _ s) = epochs.
Proof.
  intros Hlr HA HR Hcall.
  destruct (train_model_spec Module_ Tensor_ Optimizer Plateau SchedulerLine call MSELoss
              Adam ReduceLROnPlateau zero_grad backward optimizer_step plateau_step
              model t x epochs lr opt p Hlr HA HR Hcall) as (s & Hs & Hc & _).
  exists s. split; [exact Hs | exact Hc].
Qed.

Lemma train_model_runs_all_epochs_witness :
  exists s,
    counting_train_model tt (S754_zero false) f32_2p100 2500 f32_lr = Ok s /\
    last_epoch unit (scheduler _ _ _ _ s) = 2500%nat.
Proof.
  apply (train_model_runs_all_epochs unit spec_float nat unit unit zero_call mse_of_one
           (fun _ _ => Ok 0%nat) (fun _ _ _ _ => Ok tt) (fun _ m => m) (fun m _ _ => m)
           (fun o m => (S o, m)) (fun p _ o => (p, o, []))
           tt (S754_zero false) f32_2p100 2500 f32_lr 0%nat tt).
  - reflexivity.
  - reflexivity.
  - reflexivity.
  - intros m. do 2 eexists. split; reflexivity.
Defined.

(** C4 as stated fails: on the observation 2^100 the all-zero model has an
    infinite loss from the first epoch on, and the run of 2000 epochs still
    takes all 2000 optimizer and scheduler steps, prints the infinite loss
    at epochs 1000 and 2000, and returns normally. *)
Lemma train_model_continues_on_infinite_loss :
  mse_of_one (S754_zero false) f32_2p100 = Ok (S754_infinity false) /\
  is_finite (S754_infinity false) = false /\
  counting_train_model tt (S754_zero false) f32_2p100 2000 f32_lr =
    Ok (mkTrainState unit nat unit unit tt 2000%nat (mkScheduler unit 2000 tt)
          [Progress 1000 2000 (S754_infinity false);
           Progress 2000 2000 (S754_infinity false)]).
Proof.
  repeat split; vm_compute; reflexivity.
Qed.

(** X12. When Adam accepts the learning rate, the constructors return and
    the forward pass and the loss return, the progress lines of
    [train_model] are exactly those of the epochs 1000, 2000, ... up to
    [epochs] (none for a run shorter than 1000 epochs), whatever the
    scheduler prints in between; each carries the epoch count of the run and
    the loss that [nn.MSELoss] returned for a forward output. *)
Theorem train_model_reports
  (Module_ Tensor_ Optimizer Plateau SchedulerLine : Type)
  (call : Module_ -> Tensor_ -> Tensor_ -> result Tensor_)
  (MSELoss : Tensor_ -> Tensor_ -> result spec_float)
  (Adam : Module_ -> spec_float -> result Optimizer)
  (ReduceLROnPlateau : Optimizer -> nat -> spec_float -> bool -> result Plateau)
  (zero_grad : Optimizer -> Module_ -> Module_)
  (backward : Module_ -> Tensor_ -> Tensor_ -> Module_)
  (optimizer_step : Optimizer -> Module_ -> Optimizer * Module_)
  (plateau_step :
     Plateau -> spec_float -> Optimizer -> Plateau * Optimizer * list SchedulerLine)
  (model : Module_) (t x : Tensor_) (epochs : nat) (lr : spec_float)
  (opt : Optimizer) (p : Plateau) :
  SFleb (S754_zero false) lr = true ->
  Adam model lr = Ok opt ->
  ReduceLROnPlateau opt 100%nat f32_half true = Ok p ->
  (forall m, exists out loss, call m t x = Ok out /\ MSELoss out x = Ok loss) ->
  exists s,
    train_model Module_ Tensor_ Optimizer Plateau SchedulerLine call MSELoss Adam
      ReduceLROnPlateau zero_grad backward optimizer_step plateau_step
      model t x epochs lr = Ok s /\
    map (fun q => fst (fst q)) (progress_lines (stdout _ _ _ _ s)) =
      filter (fun e => (e mod 1000 =? 0)%nat) (seq 1 epochs) /\
    Forall (fun q => snd (fst q) = epochs /\
                     exists m out, call m t x = Ok out /\ MSELoss out x = Ok (snd q))
           (progress_lines (stdout _ _ _ _ s)).
Proof.
  intros Hlr HA HR Hcall.
  destruct (train_model_spec Module_ Tensor_ Optimizer Plateau SchedulerLine call MSELoss
              Adam ReduceLROnPlateau zero_grad backward optimizer_step plateau_step
              model t x epochs lr opt p Hlr HA HR Hcall) as (s & Hs & _ & Hm & Hf).
  exists s. split; [exact Hs|]. split; [exact Hm | exact Hf].
Qed.

(** A scheduler that prints one line at every step, on 2500 epochs. *)
Lemma train_model_reports_witness :
  exists s,
    train_model unit spec_float nat unit nat zero_call mse_of_one
      (fun _ _ => Ok 0%nat) (fun _ _ _ _ => Ok tt) (fun _ m => m) (fun m _ _ => m)
      (fun o m => (S o, m)) (fun p _ o => (p, o, [o]))
      tt (S754_zero false) f32_2p100 2500 f32_lr = Ok s /\
    map (fun q => fst (fst q)) (progress_lines (stdout _ _ _ _ s)) =
      filter (fun e => (e mod 1000 =? 0)%nat) (seq 1 2500) /\
    Forall (fun q => snd (fst q) = 2500%nat /\
                     exists m out, zero_call m (S754_zero false) f32_2p100 = Ok out /\
                                   mse_of_one out f32_2p100 = Ok (snd q))
           (progress_lines (stdout _ _ _ _ s)).
Proof.
  apply (train_model_reports unit spec_float nat unit nat zero_call mse_of_one
           (fun _ _ => Ok 0%nat) (fun _ _ _ _ => Ok tt) (fun _ m => m) (fun m _ _ => m)
           (fun o m => (S o, m)) (fun p _ o => (p, o, [o]))
           tt (S754_zero false) f32_2p100 2500 f32_lr 0%nat tt).
  - reflexivity.
  - reflexivity.
  - reflexivity.
  - intros m. do 2 eexists. split; reflexivity.
Defined.

(* ------------------------------------------------------------------ *)
(** ** The statements at the example inputs *)

Lemma example_block_constructed :
  MultiTimeAttention_init 1 2 2 zero_attention_init = Ok example_block.
Proof. reflexivity. Qed.



(** A model of width 2 with one block runs on the example series. *)
Lemma example_forward_one_block :
  exists model out,
    ImprovedMTAN_init 1 2 2 1 zero_model_init = Ok model /\
    ImprovedMTAN_forward model example_t example_x = Ok out.
Proof. do 2 eexists. split; reflexivity. Qed.

Lemma residual_stacking_witness :
  exists model h0 out,
    ImprovedMTAN_init 1 2 2 1 zero_model_init = Ok model /\
    Linear_forward (input_proj model) (unsqueeze_last example_x) = Ok h0 /\
    residual_stack (attention_layers model) h0 example_t = Ok out /\
    exists layer xin y xout,
      attention_layers model = [] ++ layer :: [] /\
      residual_stack [] h0 example_t = Ok xin /\
      MultiTimeAttention_forward layer xin example_t = Ok y /\
      add y xin = Ok xout /\
      (forall idx, data xout idx = data y idx + data xin idx) /\
      shape y = shape xin /\
      shape xin = shape h0 /\
      shape xout = shape h0 /\
      residual_stack [] xout example_t = Ok out /\
      shape out = shape h0 /\
      exists yfc,
        Linear_forward (fc model) out = Ok yfc /\
        ImprovedMTAN_forward model example_t example_x = Ok (squeeze_last yfc).
Proof.
  do 3 eexists. split; [reflexivity|]. split; [reflexivity|]. split; [reflexivity|].
  eexists.
  destruct (residual_stacking 1 2 2 1 zero_model_init _ example_t example_x eq_refl)
    as [_ H].
  destruct (H _ _ [] _ [] eq_refl eq_refl eq_refl) as (xin & y & xout & R).
  exists xin, y, xout. split; [reflexivity | exact R].
Defined.

(* ================================================================== *)
(** * Further properties of the code *)

(** ** A block on inputs of matching sizes *)

Lemma numel_snoc (sh : list nat) (n : nat) : numel (sh ++ [n]) = (numel sh * n)%nat.
Proof.
  unfold numel. induction sh as [|s sh IH]; simpl.
  - lia.
  - rewrite IH. lia.
Qed.

Lemma view_Ok (sh : list nat) (t : tensor) :
  numel (shape t) = numel sh ->
  view sh t = Ok (mkTensor sh (fun idx => data t (unravel (shape t) (ravel sh idx)))).
Proof.
  intros E. unfold view. rewrite E, Nat.eqb_refl. reflexivity.
Qed.

Lemma view_Raise (sh : list nat) (t : tensor) :
  numel (shape t) <> numel sh -> view sh t = Raise (RuntimeError InvalidView).
Proof.
  intros E. unfold view. apply Nat.eqb_neq in E. rewrite E. reflexivity.
Qed.

Lemma MultiTimeAttention_init_Ok_inv (input_dim e h : nat) (theta : AttentionInit)
  (self : MultiTimeAttention) :
  MultiTimeAttention_init input_dim e h theta = Ok self ->
  h <> 0%nat /\
  self = mkMultiTimeAttention e h (e / h)
           (nn_Linear input_dim e (q_init theta))
           (nn_Linear input_dim e (k_init theta))
           (nn_Linear input_dim e (v_init theta))
           (TimeEmbedding_init e (te_init theta)).
Proof.
  unfold MultiTimeAttention_init. destruct h as [|h]; simpl; [discriminate|].
  intros H. injection H as <-. split; [discriminate | reflexivity].
Qed.

(** [torch.matmul(attn, v)] on weights (B, H, L, L) and values (B, H, L, D). *)
Lemma matmul_weights_values (attn v : tensor) (B H L D : nat) :
  shape attn = [B; H; L; L] -> shape v = [B; H; L; D] ->
  exists o,
    matmul attn v = Ok o /\
    shape o = [B; H; L; D] /\
    forall b h i d,
      data o [b; h; i; d] =
      sum_upto L (fun j => data attn [b; h; i; j] * data v [b; h; j; d]).
Proof.
  intros Ha Hv. unfold matmul. rewrite Ha, Hv. simpl.
  rewrite !Nat.eqb_refl. simpl. eexists. split; [reflexivity|].
  split; reflexivity.
Qed.

(** The forward pass of a constructed block, stage by stage, whenever the
    element counts of the reshapes agree. *)
Lemma block_forward_stages (input_dim e h : nat) (theta : AttentionInit)
  (self : MultiTimeAttention) (x t : tensor) (B L : nat) :
  MultiTimeAttention_init input_dim e h theta = Ok self ->
  shape x = [B; L; input_dim] ->
  (B * L * e = B * L * (h * (e / h)))%nat ->
  (numel (shape t) * e = B * L * (h * (e / h)))%nat ->
  exists v hs attn o out,
    Linear_forward (v_linear self) x = Ok v /\
    shape v = [B; L; e] /\
    split_heads self B L v = Ok (hv hs) /\
    MultiTimeAttention_heads self x t = Ok hs /\
    MultiTimeAttention_weights self hs = Ok attn /\
    shape attn = [B; h; L; L] /\
    matmul attn (hv hs) = Ok o /\
    shape o = [B; h; L; (e / h)%nat] /\
    (forall b h0 i d,
       data o [b; h0; i; d] =
       sum_upto L (fun j => data attn [b; h0; i; j] * data (hv hs) [b; h0; j; d])) /\
    view [B; L; e] (transpose 1 2 o) = Ok out /\
    MultiTimeAttention_forward self x t = Ok out /\
    shape out = [B; L; e].
Proof.
  intros Hinit Hx Hn Ht.
  apply MultiTimeAttention_init_Ok_inv in Hinit. destruct Hinit as [Hh ->].
  set (self := mkMultiTimeAttention e h (e / h) _ _ _ _).
  destruct (Linear_forward_snoc (nn_Linear input_dim e (q_init theta)) x [B; L] Hx)
    as [q [Hq [Hqs _]]].
  destruct (Linear_forward_snoc (nn_Linear input_dim e (k_init theta)) x [B; L] Hx)
    as [k [Hk [Hks _]]].
  destruct (Linear_forward_snoc (nn_Linear input_dim e (v_init theta)) x [B; L] Hx)
    as [v [Hv [Hvs _]]].
  destruct (TimeEmbedding_forward_spec e (te_init theta) t) as [te [Hte [Htes _]]].
  simpl in Hqs, Hks, Hvs.
  assert (Nx : forall y, shape y = [B; L; e] ->
             numel (shape y) = numel [B; L; h; (e / h)%nat]).
  { intros y ->. simpl. lia. }
  assert (Nt : numel (shape te) = numel [B; L; h; (e / h)%nat]).
  { rewrite Htes, numel_snoc. simpl. lia. }
  pose proof (view_Ok [B; L; h; (e / h)%nat] q (Nx q Hqs)) as Vq.
  pose proof (view_Ok [B; L; h; (e / h)%nat] k (Nx k Hks)) as Vk.
  pose proof (view_Ok [B; L; h; (e / h)%nat] v (Nx v Hvs)) as Vv.
  pose proof (view_Ok [B; L; h; (e / h)%nat] te Nt) as Vte.
  assert (Hheads : exists hs,
             MultiTimeAttention_heads self x t = Ok hs /\
             split_heads self B L v = Ok (hv hs)).
  { unfold MultiTimeAttention_heads, split_heads. rewrite Hx.
    cbn [q_linear k_linear v_linear time_embedding num_heads head_dim self].
    rewrite Hq, Hk, Hv. cbn [bind]. rewrite Hte. cbn [bind].
    rewrite Vq, Vk, Vv, Vte. cbn [bind]. eexists. split; reflexivity. }
  destruct Hheads as [hs [Hhs Hsv]].
  destruct (logits_spec self x t hs Hhs)
    as (B' & L' & n' & c & s & a & Hx' & Hc & Hsc & Ha & Has & _).
  rewrite Hx in Hx'. injection Hx' as <- <- <-.
  destruct (heads_shapes self x t hs Hhs) as (B' & L' & n' & Hx' & _ & _ & Hvsh & _).
  rewrite Hx in Hx'. injection Hx' as <- <- <-.
  cbn [num_heads head_dim self] in Has, Hvsh.
  destruct (matmul_weights_values (softmax a) (hv hs) B h L (e / h)%nat Has Hvsh)
    as [o [Ho [Hos Hod]]].
  assert (No : numel (shape (transpose 1 2 o)) = numel [B; L; e]).
  { simpl. rewrite Hos. simpl. lia. }
  pose proof (view_Ok [B; L; e] (transpose 1 2 o) No) as Vo.
  exists v, hs, (softmax a), o. eexists.
  split; [exact Hv|]. split; [exact Hvs|]. split; [exact Hsv|].
  split; [exact Hhs|].
  assert (Hw : MultiTimeAttention_weights self hs = Ok (softmax a)).
  { unfold MultiTimeAttention_weights, MultiTimeAttention_logits.
    rewrite Hc, Hsc. cbn [bind]. rewrite Ha. reflexivity. }
  split; [exact Hw|]. split; [exact Has|]. split; [exact Ho|].
  split; [exact Hos|]. split; [exact Hod|]. split; [exact Vo|]. split.
  - unfold MultiTimeAttention_forward. rewrite Hx, Hhs. cbn [bind].
    rewrite Hw. cbn [bind]. rewrite Ho. cbn [bind]. exact Vo.
  - reflexivity.
Qed.

Lemma divisible_width (e h : nat) :
  h <> 0%nat -> (e mod h = 0)%nat -> (h * (e / h) = e)%nat.
Proof.
  intros Hh Hm. pose proof (Nat.div_mod_eq e h). lia.
Qed.

(** X1. A block whose head count divides its width maps a content tensor of
    shape (B, L, input_dim) and timestamps with B * L entries to a tensor of
    shape (B, L, embed_dim); it raises nothing. *)
Theorem block_forward_shape (input_dim e h : nat) (theta : AttentionInit)
  (self : MultiTimeAttention) (x t : tensor) (B L : nat) :
  MultiTimeAttention_init input_dim e h theta = Ok self ->
  (e mod h = 0)%nat ->
  shape x = [B; L; input_dim] ->
  numel (shape t) = (B * L)%nat ->
  exists out,
    MultiTimeAttention_forward self x t = Ok out /\
    shape out = [B; L; embed_dim self].
Proof.
  intros Hinit Hm Hx Ht.
  destruct (MultiTimeAttention_init_Ok_inv _ _ _ _ _ Hinit) as [Hh Hs].
  pose proof (divisible_width e h Hh Hm) as Hd.
  destruct (block_forward_stages input_dim e h theta self x t B L Hinit Hx)
    as (v & hs & attn & o & out & _ & _ & _ & _ & _ & _ & _ & _ & _ & _ & Hf & Hso).
  - rewrite Hd. reflexivity.
  - rewrite Hd, Ht. reflexivity.
  - exists out. split; [exact Hf|]. rewrite Hs. exact Hso.
Qed.

Lemma block_forward_shape_witness :
  exists out,
    MultiTimeAttention_forward example_block example_content example_t = Ok out /\
    shape out = [1; 2; embed_dim example_block]%nat.
Proof.
  apply (block_forward_shape 1 2 2 zero_attention_init example_block
           example_content example_t 1 2); reflexivity.
Defined.

(** X2. In a block whose head count divides its width, the number of
    timestamps has to equal the number of positions: otherwise the forward
    pass fails at the reshape of the time embedding. *)
Theorem block_forward_time_mismatch (input_dim e h : nat) (theta : AttentionInit)
  (self : MultiTimeAttention) (x t : tensor) (B L : nat) :
  MultiTimeAttention_init input_dim e h theta = Ok self ->
  (e mod h = 0)%nat ->
  (1 <= e)%nat ->
  shape x = [B; L; input_dim] ->
  numel (shape t) <> (B * L)%nat ->
  MultiTimeAttention_forward self x t = Raise (RuntimeError InvalidView).
Proof.
  intros Hinit Hm He Hx Ht.
  apply MultiTimeAttention_init_Ok_inv in Hinit. destruct Hinit as [Hh ->].
  pose proof (divisible_width e h Hh Hm) as Hd.
  destruct (Linear_forward_snoc (nn_Linear input_dim e (q_init theta)) x [B; L] Hx)
    as [q [Hq [Hqs _]]].
  destruct (Linear_forward_snoc (nn_Linear input_dim e (k_init theta)) x [B; L] Hx)
    as [k [Hk [Hks _]]].
  destruct (Linear_forward_snoc (nn_Linear input_dim e (v_init theta)) x [B; L] Hx)
    as [v [Hv [Hvs _]]].
  destruct (TimeEmbedding_forward_spec e (te_init theta) t) as [te [Hte [Htes _]]].
  simpl in Hqs, Hks, Hvs.
  assert (Nx : forall y, shape y = [B; L; e] ->
             numel (shape y) = numel [B; L; h; (e / h)%nat]).
  { intros y ->. simpl. rewrite <- Hd at 1. lia. }
  assert (Nt : numel (shape te) <> numel [B; L; h; (e / h)%nat]).
  { rewrite Htes, numel_snoc. simpl.
    replace (B * (L * (h * (e / h * 1))))%nat with (B * L * e)%nat
      by (rewrite <- Hd at 1; lia).
    nia. }
  unfold MultiTimeAttention_forward, MultiTimeAttention_heads, split_heads.
  rewrite Hx.
  cbn [q_linear k_linear v_linear time_embedding num_heads head_dim].
  rewrite Hq, Hk, Hv. cbn [bind]. rewrite Hte. cbn [bind].
  rewrite (view_Ok _ q (Nx q Hqs)), (view_Ok _ k (Nx k Hks)), (view_Ok _ v (Nx v Hvs)).
  cbn [bind]. rewrite (view_Raise _ te Nt). reflexivity.
Qed.

Lemma block_forward_time_mismatch_witness :
  MultiTimeAttention_forward example_block example_content
    (unsqueeze_first (torch_tensor [0; 1; 2])) = Raise (RuntimeError InvalidView).
Proof.
  apply (block_forward_time_mismatch 1 2 2 zero_attention_init example_block
           example_content (unsqueeze_first (torch_tensor [0; 1; 2])) 1 2).
  - reflexivity.
  - reflexivity.
  - apply le_S, le_n.
  - reflexivity.
  - simpl. discriminate.
Defined.

(** ** Heads: split, attend, concatenate *)

(** The reshape that concatenates the heads puts head h at the coordinates
    h * D, ..., h * D + D - 1 of the last axis. *)
Lemma merge_heads_slices (o m : tensor) (B H L D : nat) :
  shape o = [B; H; L; D] ->
  view [B; L; (H * D)%nat] (transpose 1 2 o) = Ok m ->
  forall b l h d,
    (l < L)%nat -> (h < H)%nat -> (d < D)%nat ->
    data m [b; l; (h * D + d)%nat] = data o [b; h; l; d].
Proof.
  intros Ho Hv b l h d Hl Hh Hd.
  unfold view in Hv.
  destruct (numel _ =? numel _)%nat; [|discriminate]. injection Hv as <-.
  cbn [transpose data shape]. rewrite Ho.
  cbn [swap length seq map nth Nat.eqb ravel unravel numel fold_right].
  rewrite !Nat.mul_1_r, Nat.add_0_r.
  assert (R1 : (h * D + d < H * D)%nat) by nia.
  assert (R2 : (l * (H * D) + (h * D + d) < L * (H * D))%nat) by nia.
  destruct (div_mod_block (L * (H * D)) b (l * (H * D) + (h * D + d)) R2) as [E1 E2].
  destruct (div_mod_block (H * D) l (h * D + d) R1) as [E3 E4].
  destruct (div_mod_block D h d Hd) as [E5 E6].
  rewrite E1, E2, E3, E4, E5, E6, Nat.div_1_r.
  reflexivity.
Qed.

(** X3. Splitting a stream into heads and concatenating the heads again
    gives the stream back: the two reshapes of [forward] are inverse to each
    other when num_heads * head_dim is the width. *)
Theorem split_then_merge_heads (self : MultiTimeAttention) (B L : nat) (y y' : tensor) :
  shape y = [B; L; (num_heads self * head_dim self)%nat] ->
  split_heads self B L y = Ok y' ->
  exists m,
    view [B; L; (num_heads self * head_dim self)%nat] (transpose 1 2 y') = Ok m /\
    shape m = shape y /\
    forall b l c,
      (l < L)%nat -> (c < num_heads self * head_dim self)%nat ->
      data m [b; l; c] = data y [b; l; c].
Proof.
  intros Hy Hs.
  pose proof (split_heads_Ok_inv self B L y y' Hs) as Hs'.
  assert (N : numel (shape (transpose 1 2 y')) =
              numel [B; L; (num_heads self * head_dim self)%nat]).
  { simpl. rewrite Hs'. simpl. lia. }
  pose proof (view_Ok _ _ N) as Hv.
  eexists. split; [exact Hv|]. split; [simpl; symmetry; exact Hy|].
  intros b l c Hl Hc.
  assert (HD : (0 < head_dim self)%nat) by nia.
  pose proof (Nat.div_mod_eq c (head_dim self)) as Ec.
  pose proof (Nat.mod_upper_bound c (head_dim self)) as Ub.
  assert (Hq : (c / head_dim self < num_heads self)%nat).
  { apply Nat.Div0.div_lt_upper_bound. lia. }
  replace c with (c / head_dim self * head_dim self + c mod head_dim self)%nat at 1 2 by lia.
  rewrite (merge_heads_slices y' _ B (num_heads self) L (head_dim self) Hs' Hv
             b l (c / head_dim self)%nat (c mod head_dim self)%nat Hl Hq);
    [|lia].
  apply (split_heads_slices self B L y y' Hy Hs); [exact Hl | exact Hq | lia].
Qed.

Lemma split_then_merge_heads_witness :
  exists y' m,
    split_heads example_block 1 2
      (mkTensor [1; 2; 2]%nat (fun idx => INR (last idx 0%nat))) = Ok y' /\
    view [1; 2; (num_heads example_block * head_dim example_block)]%nat
      (transpose 1 2 y') = Ok m /\
    shape m = [1; 2; 2]%nat /\
    forall b l c,
      (l < 2)%nat -> (c < num_heads example_block * head_dim example_block)%nat ->
      data m [b; l; c] = INR (last [b; l; c] 0%nat).
Proof.
  eexists.
  destruct (split_then_merge_heads example_block 1 2
              (mkTensor [1; 2; 2]%nat (fun idx => INR (last idx 0%nat))) _
              eq_refl eq_refl) as [m [Hm [Hs Hd]]].
  exists m. split; [reflexivity|]. split; [exact Hm|]. split; [exact Hs|].
  exact Hd.
Defined.

Lemma sum_upto_le (n : nat) (f g : nat -> R) :
  (forall i, (i < n)%nat -> f i <= g i) -> sum_upto n f <= sum_upto n g.
Proof.
  induction n as [|n IH]; intros E; simpl.
  - lra.
  - assert (sum_upto n f <= sum_upto n g) by (apply IH; intros; apply E; lia).
    pose proof (E n (Nat.lt_succ_diag_r n)). lra.
Qed.

(** A weighted sum with non-negative weights of total 1 stays within the
    range of its terms. *)
Lemma sum_upto_convex (n : nat) (w f : nat -> R) (lo hi : R) :
  (forall j, (j < n)%nat -> 0 <= w j) ->
  sum_upto n w = 1 ->
  (forall j, (j < n)%nat -> lo <= f j <= hi) ->
  lo <= sum_upto n (fun j => w j * f j) <= hi.
Proof.
  intros Hw H1 Hf. split.
  - replace lo with (sum_upto n w * lo) by (rewrite H1; ring).
    rewrite <- sum_upto_scale. apply sum_upto_le. intros j Hj.
    pose proof (Hw j Hj). pose proof (Hf j Hj). nra.
  - replace hi with (sum_upto n w * hi) by (rewrite H1; ring).
    rewrite <- sum_upto_scale. apply sum_upto_le. intros j Hj.
    pose proof (Hw j Hj). pose proof (Hf j Hj). nra.
Qed.

(** The weights of a block: non-negative, each row of total 1. *)
Lemma weights_rows (self : MultiTimeAttention) (x t : tensor) (hs : heads)
  (attn : tensor) (B L n : nat) :
  MultiTimeAttention_heads self x t = Ok hs ->
  MultiTimeAttention_weights self hs = Ok attn ->
  shape x = [B; L; n] ->
  (1 <= L)%nat ->
  forall b h i,
    (forall j, 0 <= data attn [b; h; i; j]) /\
    sum_upto L (fun j => data attn [b; h; i; j]) = 1.
Proof.
  intros Hh Hw Hx HL.
  destruct (logits_spec self x t hs Hh)
    as (B' & L' & n' & c & s & a & Hx' & Hc & Hsc & Ha & Hs & _).
  rewrite Hx in Hx'. injection Hx' as <- <- <-.
  unfold MultiTimeAttention_weights, MultiTimeAttention_logits in Hw.
  rewrite Hc, Hsc in Hw. cbn [bind] in Hw. rewrite Ha in Hw. cbn [bind] in Hw.
  injection Hw as <-.
  intros b h i. cbn [softmax data]. rewrite Hs. cbn [last].
  set (S := sum_upto L (fun j => exp (data a [b; h; i; j]))).
  assert (HS : 0 < S) by (apply sum_upto_exp_pos; lia).
  split.
  - intros j. unfold set_last. simpl. fold S.
    apply Rlt_le, Rdiv_lt_0_compat; [apply exp_pos | exact HS].
  - unfold set_last. simpl. fold S. unfold Rdiv.
    rewrite sum_upto_scale. fold S. field. lra.
Qed.

(** Coordinate c of a block's output as a sum over the positions. *)
Lemma block_output_formula (input_dim e h : nat) (theta : AttentionInit)
  (self : MultiTimeAttention) (x t v out : tensor) (B L : nat) :
  MultiTimeAttention_init input_dim e h theta = Ok self ->
  (e mod h = 0)%nat ->
  shape x = [B; L; input_dim] ->
  numel (shape t) = (B * L)%nat ->
  Linear_forward (v_linear self) x = Ok v ->
  MultiTimeAttention_forward self x t = Ok out ->
  exists hs attn,
    MultiTimeAttention_heads self x t = Ok hs /\
    MultiTimeAttention_weights self hs = Ok attn /\
    forall b l c,
      (l < L)%nat -> (c < e)%nat ->
      data out [b; l; c] =
        sum_upto L (fun j => data attn [b; (c / head_dim self)%nat; l; j] * data v [b; j; c]).
Proof.
  intros Hinit Hm Hx Ht Hv Hf.
  destruct (MultiTimeAttention_init_Ok_inv _ _ _ _ _ Hinit) as [Hh Hs].
  pose proof (divisible_width e h Hh Hm) as Hd.
  destruct (block_forward_stages input_dim e h theta self x t B L Hinit Hx)
    as (v' & hs & attn & o & out' & Hv' & Hvs & Hsv & Hhs & Hw & Has & Ho & Hos
        & Hod & Vo & Hf' & _).
  { rewrite Hd. reflexivity. }
  { rewrite Hd, Ht. reflexivity. }
  rewrite Hv in Hv'. injection Hv' as <-.
  rewrite Hf in Hf'. injection Hf' as <-.
  exists hs, attn. split; [exact Hhs|]. split; [exact Hw|].
  intros b l c Hl Hc.
  assert (HD : head_dim self = (e / h)%nat) by (rewrite Hs; reflexivity).
  assert (HH : num_heads self = h) by (rewrite Hs; reflexivity).
  rewrite HD.
  remember (e / h)%nat as D eqn:ED.
  assert (HDpos : (0 < D)%nat) by nia.
  pose proof (Nat.div_mod_eq c D) as Ec.
  pose proof (Nat.mod_upper_bound c D) as Ub.
  assert (Hq : (c / D < h)%nat) by (apply Nat.Div0.div_lt_upper_bound; nia).
  assert (Vo' : view [B; L; (h * D)%nat] (transpose 1 2 o) = Ok out)
    by (rewrite Hd; exact Vo).
  assert (Hvs' : shape v = [B; L; (num_heads self * head_dim self)%nat])
    by (rewrite HH, HD, Hd; exact Hvs).
  replace c with (c / D * D + c mod D)%nat at 1 by lia.
  rewrite (merge_heads_slices o out B h L D Hos Vo' b l (c / D)%nat (c mod D)%nat
             Hl Hq) by lia.
  rewrite Hod. apply sum_upto_ext. intros j Hj. f_equal.
  rewrite (split_heads_slices self B L v (hv hs) Hvs' Hsv b j (c / D)%nat (c mod D)%nat
             Hj) by (rewrite ?HH, ?HD; lia).
  rewrite HD. replace (c / D * D + c mod D)%nat with c by nia. reflexivity.
Qed.

(** X4. Coordinate c of a block's output at a position is the sum over all
    positions j of the attention weight of j (in the head that holds c)
    times coordinate c of the value projection at j; the weights being
    non-negative with total 1, the output coordinate lies within the range
    of that coordinate of the value projection. *)
Theorem block_output_weighted_values (input_dim e h : nat) (theta : AttentionInit)
  (self : MultiTimeAttention) (x t v out : tensor) (B L : nat) :
  MultiTimeAttention_init input_dim e h theta = Ok self ->
  (e mod h = 0)%nat ->
  shape x = [B; L; input_dim] ->
  numel (shape t) = (B * L)%nat ->
  Linear_forward (v_linear self) x = Ok v ->
  MultiTimeAttention_forward self x t = Ok out ->
  exists hs attn,
    MultiTimeAttention_heads self x t = Ok hs /\
    MultiTimeAttention_weights self hs = Ok attn /\
    forall b l c,
      (l < L)%nat -> (c < e)%nat ->
      data out [b; l; c] =
        sum_upto L (fun j => data attn [b; (c / head_dim self)%nat; l; j] * data v [b; j; c]) /\
      forall lo hi,
        (forall j, (j < L)%nat -> lo <= data v [b; j; c] <= hi) ->
        lo <= data out [b; l; c] <= hi.
Proof.
  intros Hinit Hm Hx Ht Hv Hf.
  destruct (block_output_formula input_dim e h theta self x t v out B L
              Hinit Hm Hx Ht Hv Hf) as (hs & attn & Hhs & Hw & E).
  exists hs, attn. split; [exact Hhs|]. split; [exact Hw|].
  intros b l c Hl Hc. split; [apply E; assumption|].
  intros lo hi Hb. rewrite (E b l c Hl Hc).
  destruct (weights_rows self x t hs attn B L input_dim Hhs Hw Hx) with
    (b := b) (h := (c / head_dim self)%nat) (i := l) as [Wpos Wsum]; [lia|].
  apply sum_upto_convex; auto.
Qed.

Lemma block_output_weighted_values_witness :
  exists v out hs attn,
    Linear_forward (v_linear example_block) example_content = Ok v /\
    MultiTimeAttention_forward example_block example_content example_t = Ok out /\
    MultiTimeAttention_heads example_block example_content example_t = Ok hs /\
    MultiTimeAttention_weights example_block hs = Ok attn /\
    forall b l c,
      (l < 2)%nat -> (c < 2)%nat ->
      data out [b; l; c] =
        sum_upto 2 (fun j => data attn [b; (c / head_dim example_block)%nat; l; j]
                             * data v [b; j; c]) /\
      forall lo hi,
        (forall j, (j < 2)%nat -> lo <= data v [b; j; c] <= hi) ->
        lo <= data out [b; l; c] <= hi.
Proof.
  do 2 eexists.
  destruct (block_output_weighted_values 1 2 2 zero_attention_init example_block
              example_content example_t _ _ 1 2
              eq_refl eq_refl eq_refl eq_refl eq_refl eq_refl) as [hs [attn H]].
  exists hs, attn. split; [reflexivity|]. split; [reflexivity|]. exact H.
Defined.

(** X16. On a sequence of length 1 the only attention weight is 1: the block
    returns the value projection of its input, whatever the queries, keys
    and timestamps are. *)
Theorem block_on_single_position (input_dim e h : nat) (theta : AttentionInit)
  (self : MultiTimeAttention) (x t v out : tensor) (B : nat) :
  MultiTimeAttention_init input_dim e h theta = Ok self ->
  (e mod h = 0)%nat ->
  shape x = [B; 1%nat; input_dim] ->
  numel (shape t) = B ->
  Linear_forward (v_linear self) x = Ok v ->
  MultiTimeAttention_forward self x t = Ok out ->
  forall b c, (c < e)%nat -> data out [b; 0%nat; c] = data v [b; 0%nat; c].
Proof.
  intros Hinit Hm Hx Ht Hv Hf b c Hc.
  assert (Ht' : numel (shape t) = (B * 1)%nat) by lia.
  destruct (block_output_formula input_dim e h theta self x t v out B 1
              Hinit Hm Hx Ht' Hv Hf) as (hs & attn & Hhs & Hw & E).
  rewrite (E b 0%nat c (Nat.lt_0_succ 0) Hc).
  destruct (weights_rows self x t hs attn B 1 input_dim Hhs Hw Hx (le_n 1)
              b (c / head_dim self)%nat 0%nat) as [_ Wsum].
  simpl in Wsum. simpl.
  replace (data attn [b; (c / head_dim self)%nat; 0%nat; 0%nat]) with 1 by lra.
  ring.
Qed.

Lemma block_on_single_position_witness :
  exists v out,
    Linear_forward (v_linear example_block)
      (unsqueeze_last (unsqueeze_first (torch_tensor [1]))) = Ok v /\
    MultiTimeAttention_forward example_block
      (unsqueeze_last (unsqueeze_first (torch_tensor [1])))
      (unsqueeze_first (torch_tensor [0])) = Ok out /\
    forall b c, (c < 2)%nat -> data out [b; 0%nat; c] = data v [b; 0%nat; c].
Proof.
  do 2 eexists. split; [reflexivity|]. split; [reflexivity|].
  apply (block_on_single_position 1 2 2 zero_attention_init example_block
           (unsqueeze_last (unsqueeze_first (torch_tensor [1])))
           (unsqueeze_first (torch_tensor [0])) _ _ 1); reflexivity.
Defined.

(* ------------------------------------------------------------------ *)
(** ** The model on valid and on degenerate inputs *)

Lemma mapM_Forall {A B : Type} (f : A -> result B) (l : list A) (bs : list B) :
  mapM f l = Ok bs -> Forall (fun b => exists a, f a = Ok b) bs.
Proof.
  revert bs. induction l as [|a l IH]; simpl; intros bs H.
  - injection H as <-. constructor.
  - do 2 inv_bind H. injection H as <-. constructor; [exists a; exact Ha0 | auto].
Qed.

(** Every block of a constructed model comes from the block constructor
    with the model's width and head count. *)
Lemma constructed_layers (input_dim hidden_dim heads_ num_layers : nat)
  (theta : ModelInit) (model : ImprovedMTAN) :
  ImprovedMTAN_init input_dim hidden_dim heads_ num_layers theta = Ok model ->
  Forall (fun layer => exists th,
            MultiTimeAttention_init hidden_dim hidden_dim heads_ th = Ok layer)
         (attention_layers model).
Proof.
  unfold ImprovedMTAN_init. intros H. inv_bind H. injection H as <-. simpl.
  apply mapM_Forall in Ha. revert Ha. apply Forall_impl.
  intros layer [i Hi]. eexists. exact Hi.
Qed.

(** The residual stack of constructed blocks on inputs whose element counts
    fit the reshapes. *)
Lemma residual_stack_constructed (hidden_dim heads_ : nat)
  (layers : list MultiTimeAttention) (t : tensor) (B L : nat) :
  Forall (fun layer => exists th,
            MultiTimeAttention_init hidden_dim hidden_dim heads_ th = Ok layer) layers ->
  (B * L * hidden_dim = B * L * (heads_ * (hidden_dim / heads_)))%nat ->
  (numel (shape t) * hidden_dim = B * L * (heads_ * (hidden_dim / heads_)))%nat ->
  forall x, shape x = [B; L; hidden_dim] ->
  exists out, residual_stack layers x t = Ok out /\ shape out = [B; L; hidden_dim].
Proof.
  intros Hall Hn Ht. induction Hall as [|layer layers [th Hl] _ IH]; intros x Hx.
  - exists x. split; [reflexivity | exact Hx].
  - destruct (block_forward_stages hidden_dim hidden_dim heads_ th layer x t B L
                Hl Hx Hn Ht)
      as (v & hs & attn & o & y & _ & _ & _ & _ & _ & _ & _ & _ & _ & _ & Hf & Hy).
    simpl. rewrite Hf. cbn [bind].
    rewrite add_same_shape by congruence. cbn [bind].
    apply IH. simpl. exact Hy.
Qed.

(** The forward pass of a constructed model with [input_dim = 1] whenever
    the stack of blocks succeeds with the shape kept. *)
Lemma model_forward_counts (hidden_dim heads_ num_layers : nat)
  (theta : ModelInit) (model : ImprovedMTAN) (t x : tensor) (B L : nat) :
  ImprovedMTAN_init 1 hidden_dim heads_ num_layers theta = Ok model ->
  shape x = [B; L] ->
  (attention_layers model = [] \/
   ((B * L * hidden_dim = B * L * (heads_ * (hidden_dim / heads_)))%nat /\
    (numel (shape t) * hidden_dim = B * L * (heads_ * (hidden_dim / heads_)))%nat)) ->
  exists out, ImprovedMTAN_forward model t x = Ok out /\ shape out = [B; L].
Proof.
  intros Hinit Hx Hc.
  destruct (ImprovedMTAN_init_Ok_inv _ _ _ _ _ _ Hinit) as [Hip [Hfc _]].
  pose proof (constructed_layers _ _ _ _ _ _ Hinit) as Hall.
  unfold ImprovedMTAN_forward. rewrite Hip, Hfc.
  destruct (Linear_forward_snoc (nn_Linear 1 hidden_dim (input_proj_init theta))
              (unsqueeze_last x) [B; L]) as [h0 [Hh0 [Hs0 _]]].
  { simpl. rewrite Hx. reflexivity. }
  rewrite Hh0. cbn [bind]. simpl in Hs0.
  assert (Hst : exists h1, residual_stack (attention_layers model) h0 t = Ok h1 /\
                           shape h1 = [B; L; hidden_dim]).
  { destruct Hc as [-> | [Hn Ht]].
    - exists h0. split; [reflexivity | exact Hs0].
    - apply (residual_stack_constructed hidden_dim heads_ _ t B L Hall Hn Ht h0 Hs0). }
  destruct Hst as [h1 [Hh1 Hs1]]. rewrite Hh1. cbn [bind].
  destruct (Linear_forward_snoc (nn_Linear hidden_dim 1 (fc_init theta)) h1 [B; L] Hs1)
    as [y [Hy [Hys _]]].
  rewrite Hy. cbn [bind]. eexists. split; [reflexivity|].
  unfold squeeze_last. rewrite Hys. reflexivity.
Qed.

Lemma zero_heads_no_layers (input_dim hidden_dim num_layers : nat)
  (theta : ModelInit) (model : ImprovedMTAN) :
  ImprovedMTAN_init input_dim hidden_dim 0 num_layers theta = Ok model ->
  attention_layers model = [].
Proof.
  unfold ImprovedMTAN_init. destruct num_layers as [|n]; simpl.
  - intros H. injection H as <-. reflexivity.
  - discriminate.
Qed.

(** X5. A model built with [input_dim = 1] and a head count that divides the
    width runs on every series: for values of shape (B, L) and B * L
    timestamps the forward pass returns one value per position, shape
    (B, L), at any depth. *)
Theorem model_forward_shape (hidden_dim heads_ num_layers : nat)
  (theta : ModelInit) (model : ImprovedMTAN) (t x : tensor) (B L : nat) :
  ImprovedMTAN_init 1 hidden_dim heads_ num_layers theta = Ok model ->
  (hidden_dim mod heads_ = 0)%nat ->
  shape x = [B; L] ->
  numel (shape t) = (B * L)%nat ->
  exists out, ImprovedMTAN_forward model t x = Ok out /\ shape out = [B; L].
Proof.
  intros Hinit Hm Hx Ht.
  apply (model_forward_counts hidden_dim heads_ num_layers theta model t x B L Hinit Hx).
  destruct (Nat.eq_dec heads_ 0) as [->|Hh].
  - left. apply (zero_heads_no_layers _ _ _ _ _ Hinit).
  - right. rewrite (divisible_width hidden_dim heads_ Hh Hm), Ht. split; reflexivity.
Qed.

(** The configuration of the notebook, on the example series. *)
Lemma model_forward_shape_witness :
  exists model out,
    ImprovedMTAN_init 1 64 4 2 zero_model_init = Ok model /\
    ImprovedMTAN_forward model example_t example_x = Ok out /\
    shape out = [1; 2]%nat.
Proof.
  eexists.
  destruct (model_forward_shape 64 4 2 zero_model_init _ example_t example_x 1 2
              eq_refl eq_refl eq_refl eq_refl) as [out [Ho Hs]].
  exists out. split; [reflexivity|]. split; [exact Ho | exact Hs].
Defined.

(** X6. On an empty sequence the forward pass succeeds for every constructed
    model, also when the head count does not divide the width: no reshape
    can fail on zero elements. *)
Theorem model_forward_empty_sequence (hidden_dim heads_ num_layers : nat)
  (theta : ModelInit) (model : ImprovedMTAN) (t x : tensor) (B L : nat) :
  ImprovedMTAN_init 1 hidden_dim heads_ num_layers theta = Ok model ->
  shape x = [B; L] ->
  (B * L = 0)%nat ->
  numel (shape t) = 0%nat ->
  exists out, ImprovedMTAN_forward model t x = Ok out /\ shape out = [B; L].
Proof.
  intros Hinit Hx Hz Ht.
  apply (model_forward_counts hidden_dim heads_ num_layers theta model t x B L Hinit Hx).
  right. rewrite Hz, Ht. split; reflexivity.
Qed.

Lemma model_forward_empty_sequence_witness :
  (10 mod 3 <> 0)%nat /\
  exists model out,
    ImprovedMTAN_init 1 10 3 2 zero_model_init = Ok model /\
    ImprovedMTAN_forward model (unsqueeze_first (torch_tensor []))
      (unsqueeze_first (torch_tensor [])) = Ok out /\
    shape out = [1; 0]%nat.
Proof.
  split; [simpl; discriminate|]. eexists.
  destruct (model_forward_empty_sequence 10 3 2 zero_model_init _
              (unsqueeze_first (torch_tensor [])) (unsqueeze_first (torch_tensor []))
              1 0 eq_refl eq_refl eq_refl eq_refl) as [out [Ho Hs]].
  exists out. split; [reflexivity|]. split; [exact Ho | exact Hs].
Defined.

(** X7. [forward] appends one axis of size 1 to the values before the input
    projection, so a model built with [input_dim] other than 1 fails on
    every input, at the input projection. *)
Theorem model_forward_needs_input_dim_1 (input_dim hidden_dim heads_ num_layers : nat)
  (theta : ModelInit) (model : ImprovedMTAN) (t x : tensor) :
  ImprovedMTAN_init input_dim hidden_dim heads_ num_layers theta = Ok model ->
  input_dim <> 1%nat ->
  ImprovedMTAN_forward model t x = Raise (RuntimeError ShapeMismatch).
Proof.
  intros Hinit Hd.
  destruct (ImprovedMTAN_init_Ok_inv _ _ _ _ _ _ Hinit) as [Hip _].
  unfold ImprovedMTAN_forward, Linear_forward. rewrite Hip.
  cbn [shape unsqueeze_last in_features nn_Linear]. rewrite rev_app_distr.
  cbn [rev app].
  assert (E : (1 =? input_dim)%nat = false) by (apply Nat.eqb_neq; lia).
  rewrite E. reflexivity.
Qed.

Lemma model_forward_needs_input_dim_1_witness :
  exists model,
    ImprovedMTAN_init 2 64 4 2 zero_model_init = Ok model /\
    ImprovedMTAN_forward model example_t example_x = Raise (RuntimeError ShapeMismatch).
Proof.
  eexists. split; [reflexivity|].
  apply (model_forward_needs_input_dim_1 2 64 4 2 zero_model_init _ example_t example_x).
  - reflexivity.
  - discriminate.
Defined.

(* ------------------------------------------------------------------ *)
(** ** interpolate, end to end *)

(** [squeeze] on the output of the model for a grid of length other than 1
    keeps the entries in order. *)
Lemma squeeze_batch_of_one (out : tensor) (m : nat) :
  shape out = [1%nat; m] -> m <> 1%nat ->
  shape (squeeze out) = [m] /\
  forall i, data (squeeze out) [i] = data out [0%nat; i].
Proof.
  intros Hs Hm. unfold squeeze. rewrite Hs. simpl.
  apply Nat.eqb_neq in Hm. rewrite Hm. split; reflexivity.
Qed.

(** [interpolate] on a non-empty, well-paired series with a model built with
    [input_dim = 1] and a head count dividing the width. *)
Lemma interpolate_returns (hidden_dim heads_ num_layers : nat)
  (theta : ModelInit) (model : ImprovedMTAN) (g : bool) (t x t_dense : list R) :
  ImprovedMTAN_init 1 hidden_dim heads_ num_layers theta = Ok model ->
  (hidden_dim mod heads_ = 0)%nat ->
  t <> [] -> length x = length t ->
  exists x_dense out,
    np_interp t_dense t x = Ok x_dense /\
    ImprovedMTAN_forward model (unsqueeze_first (torch_tensor t_dense))
      (unsqueeze_first (torch_tensor x_dense)) = Ok out /\
    fst (interpolate t x t_dense (mkWorld g model)) = Ok (squeeze out) /\
    (length t_dense <> 1%nat ->
     shape (squeeze out) = [length t_dense] /\
     forall i, data (squeeze out) [i] = data out [0%nat; i]).
Proof.
  intros Hinit Hm Hne Hlen.
  pose proof (np_interp_Ok t_dense t x Hne Hlen) as Hnp.
  set (xd := map (interp_at t x) t_dense) in *.
  assert (Hxd : length xd = length t_dense) by apply length_map.
  destruct (model_forward_counts hidden_dim heads_ num_layers theta model
              (unsqueeze_first (torch_tensor t_dense))
              (unsqueeze_first (torch_tensor xd)) 1 (length xd) Hinit eq_refl)
    as [out [Hf Hs]].
  { destruct (Nat.eq_dec heads_ 0) as [->|Hh].
    - left. apply (zero_heads_no_layers _ _ _ _ _ Hinit).
    - right. rewrite (divisible_width hidden_dim heads_ Hh Hm). simpl.
      rewrite Hxd. split; lia. }
  exists xd, out. split; [exact Hnp|]. split; [exact Hf|]. split.
  - unfold interpolate. cbn [fst]. rewrite Hnp. cbn [bind].
    unfold interpolate_dense, call_model.
    cbn [module set_grad_enabled grad_enabled]. rewrite Hf. reflexivity.
  - intros H1. rewrite Hxd in Hs.
    apply (squeeze_batch_of_one out (length t_dense) Hs H1).
Qed.

(** X9. For a model built with [input_dim = 1] and a head count dividing the
    width, [interpolate] returns exactly when the observed series is
    non-empty with as many values as times; it raises ValueError otherwise,
    before the model runs.  When it returns on a grid of length m other than
    1, the result has shape (m) and its i-th entry is the model's output at
    query position i.  Nothing requires the observed times to be sorted. *)
Theorem interpolate_returns_iff (hidden_dim heads_ num_layers : nat)
  (theta : ModelInit) (model : ImprovedMTAN) (g : bool) (t x t_dense : list R) :
  ImprovedMTAN_init 1 hidden_dim heads_ num_layers theta = Ok model ->
  (hidden_dim mod heads_ = 0)%nat ->
  (t <> [] -> length x = length t ->
   exists x_dense out,
     np_interp t_dense t x = Ok x_dense /\
     ImprovedMTAN_forward model (unsqueeze_first (torch_tensor t_dense))
       (unsqueeze_first (torch_tensor x_dense)) = Ok out /\
     fst (interpolate t x t_dense (mkWorld g model)) = Ok (squeeze out) /\
     (length t_dense <> 1%nat ->
      shape (squeeze out) = [length t_dense] /\
      forall i, data (squeeze out) [i] = data out [0%nat; i])) /\
  (t = [] \/ length x <> length t ->
   fst (interpolate t x t_dense (mkWorld g model)) = Raise ValueError).
Proof.
  intros Hinit Hm. split.
  - intros Hne Hlen.
    apply (interpolate_returns hidden_dim heads_ num_layers theta model g t x t_dense
             Hinit Hm Hne Hlen).
  - intros Hbad. unfold interpolate, np_interp. cbn [fst].
    destruct t as [|t0 t].
    + reflexivity.
    + destruct Hbad as [Hbad|Hbad]; [discriminate|].
      apply Nat.eqb_neq in Hbad. rewrite Hbad. reflexivity.
Qed.

Lemma interpolate_returns_iff_witness :
  exists model x_dense out,
    ImprovedMTAN_init 1 64 4 2 zero_model_init = Ok model /\
    np_interp [0; / 2; 1] [0; 1] [0; 1] = Ok x_dense /\
    ImprovedMTAN_forward model (unsqueeze_first (torch_tensor [0; / 2; 1]))
      (unsqueeze_first (torch_tensor x_dense)) = Ok out /\
    fst (interpolate [0; 1] [0; 1] [0; / 2; 1] (mkWorld true model)) = Ok (squeeze out) /\
    shape (squeeze out) = [3%nat] /\
    fst (interpolate [] [] [0; / 2; 1] (mkWorld true model)) = Raise ValueError.
Proof.
  eexists.
  destruct (interpolate_returns_iff 64 4 2 zero_model_init _ true [0; 1] [0; 1] [0; / 2; 1]
              eq_refl eq_refl) as [H _].
  destruct H as (xd & out & Hnp & Hf & Hi & Hs); [discriminate | reflexivity |].
  exists xd, out. split; [reflexivity|]. split; [exact Hnp|]. split; [exact Hf|].
  split; [exact Hi|]. split.
  - apply Hs. discriminate.
  - destruct (interpolate_returns_iff 64 4 2 zero_model_init _ true [] [] [0; / 2; 1]
                eq_refl eq_refl) as [_ H2].
    apply H2. left. reflexivity.
Defined.

(** The scan never leaves the range of the values from its knot on. *)
Lemma interp_from_range (lo hi : R) (xp : list R) :
  forall fp x0 f0 q,
    x0 <= q ->
    lo <= f0 <= hi ->
    (forall f, In f fp -> lo <= f <= hi) ->
    lo <= interp_from q x0 f0 xp fp <= hi.
Proof.
  induction xp as [|x1 xp IH]; intros fp x0 f0 q Hq Hf0 Hfp.
  - simpl. exact Hf0.
  - destruct fp as [|f1 fp]; [simpl; exact Hf0|].
    cbn [interp_from].
    assert (Hf1 : lo <= f1 <= hi) by (apply Hfp; left; reflexivity).
    destruct (Rlt_dec q x1) as [Hlt|Hge].
    + destruct (Req_dec_T q x0) as [_|Hne]; [exact Hf0|].
      assert (Hd : 0 < x1 - x0) by lra.
      set (r := (q - x0) / (x1 - x0)).
      assert (Hr0 : 0 <= r).
      { unfold r. apply Rlt_le, Rdiv_lt_0_compat; lra. }
      assert (Hr1 : r <= 1).
      { unfold r. apply Rlt_le. apply (Rmult_lt_reg_r (x1 - x0)); [exact Hd|].
        unfold Rdiv. rewrite Rmult_assoc, Rinv_l by lra. lra. }
      replace ((f1 - f0) / (x1 - x0) * (q - x0) + f0) with (f0 + r * (f1 - f0))
        by (unfold r; field; lra).
      split; nra.
    + apply IH; [lra | exact Hf1 | intros f Hf; apply Hfp; right; exact Hf].
Qed.

(** X10. The piecewise-linear resampling never overshoots: when the observed
    values lie in [lo, hi], so does every input value that [interpolate]
    hands to the model. *)
Theorem resampled_input_within_range (t x t_dense : list R) (lo hi : R) :
  strictly_increasing t ->
  t <> [] ->
  length x = length t ->
  (forall v, In v x -> lo <= v <= hi) ->
  exists x_dense,
    np_interp t_dense t x = Ok x_dense /\
    forall v, In v x_dense -> lo <= v <= hi.
Proof.
  intros _ Hne Hlen Hx.
  exists (map (interp_at t x) t_dense). split; [apply np_interp_Ok; assumption|].
  intros v Hv. apply in_map_iff in Hv. destruct Hv as [q [<- _]].
  destruct t as [|t0 t]; [contradiction|].
  destruct x as [|x0 x]; [discriminate|].
  unfold interp_at.
  assert (H0 : lo <= x0 <= hi) by (apply Hx; left; reflexivity).
  destruct (Rlt_dec q t0) as [_|Hge]; [exact H0|].
  apply interp_from_range; [lra | exact H0 |].
  intros f Hf. apply Hx. right. exact Hf.
Qed.

Lemma resampled_input_within_range_witness :
  exists x_dense,
    np_interp [/ 2; 2] [0; 1] [0; 1] = Ok x_dense /\
    forall v, In v x_dense -> 0 <= v <= 1.
Proof.
  apply (resampled_input_within_range [0; 1] [0; 1] [/ 2; 2] 0 1).
  - simpl. split; [lra | exact I].
  - discriminate.
  - reflexivity.
  - intros v [<-|[<-|[]]]; lra.
Defined.

(** On its own knots the interpolant returns the observed values. *)
Lemma np_interp_on_knots (t x : list R) :
  strictly_increasing t -> t <> [] -> length x = length t ->
  map (interp_at t x) t = x.
Proof.
  intros Hinc Hne Hlen. apply nth_error_ext. intros n.
  rewrite nth_error_map.
  destruct (nth_error t n) as [q|] eqn:Hq; simpl.
  - assert (Hn : (n < length x)%nat).
    { rewrite Hlen. apply nth_error_Some. congruence. }
    destruct (nth_error x n) as [xn|] eqn:Hxn.
    + f_equal. destruct (interp_at_spec t x q Hne Hlen Hinc) as [_ Hid].
      apply (Hid n xn Hq Hxn).
    + apply nth_error_None in Hxn. lia.
  - symmetry. apply nth_error_None. rewrite Hlen. apply nth_error_None. exact Hq.
Qed.

(** X11. Queried on the observed times themselves (strictly increasing),
    [interpolate] feeds the model the observed series unchanged: its result
    is the model's output on the series it was trained on. *)
Theorem interpolate_on_observed_grid (t x : list R) (st : World) :
  strictly_increasing t ->
  t <> [] ->
  length x = length t ->
  np_interp t t x = Ok x /\
  fst (interpolate t x t st) = interpolate_dense (set_grad_enabled false st) t x.
Proof.
  intros Hinc Hne Hlen.
  assert (Hnp : np_interp t t x = Ok x).
  { rewrite (np_interp_Ok t t x Hne Hlen), (np_interp_on_knots t x Hinc Hne Hlen).
    reflexivity. }
  split; [exact Hnp|].
  unfold interpolate. cbn [fst]. rewrite Hnp. reflexivity.
Qed.

Lemma interpolate_on_observed_grid_witness :
  np_interp [0; / 2; 1] [0; / 2; 1] [0; 1; 0] = Ok [0; 1; 0] /\
  fst (interpolate [0; / 2; 1] [0; 1; 0] [0; / 2; 1] (mkWorld true zero_model)) =
    interpolate_dense (set_grad_enabled false (mkWorld true zero_model))
      [0; / 2; 1] [0; 1; 0].
Proof.
  apply (interpolate_on_observed_grid [0; / 2; 1] [0; 1; 0] (mkWorld true zero_model)).
  - simpl. repeat split; lra.
  - discriminate.
  - reflexivity.
Defined.

(* ------------------------------------------------------------------ *)
(** ** generate_synthetic_data *)

Lemma insert_sorted_length (a : R) (l : list R) :
  length (insert_sorted a l) = S (length l).
Proof.
  induction l as [|b l IH]; simpl; [reflexivity|].
  destruct (Rle_dec a b); simpl; [reflexivity | rewrite IH; reflexivity].
Qed.

Lemma insert_sorted_perm (a : R) (l : list R) :
  Permutation (a :: l) (insert_sorted a l).
Proof.
  induction l as [|b l IH]; simpl; [apply Permutation_refl|].
  destruct (Rle_dec a b); [apply Permutation_refl|].
  apply perm_trans with (b :: a :: l); [apply perm_swap | apply perm_skip, IH].
Qed.

Lemma insert_sorted_non_decreasing (a : R) (l : list R) :
  non_decreasing l -> non_decreasing (insert_sorted a l).
Proof.
  induction l as [|b l IH]; intros Hl; simpl; [exact I|].
  destruct (Rle_dec a b) as [Hab|Hab].
  - split; [exact Hab | exact Hl].
  - assert (Hba : b <= a) by lra.
    destruct l as [|c l]; simpl.
    + split; [exact Hba | exact I].
    + destruct Hl as [Hbc Hl]. specialize (IH Hl). simpl in IH.
      destruct (Rle_dec a c); split; assumption.
Qed.

Lemma np_sort_spec (l : list R) :
  length (np_sort l) = length l /\
  Permutation l (np_sort l) /\
  non_decreasing (np_sort l).
Proof.
  induction l as [|a l [IHl [IHp IHs]]]; simpl.
  - split; [reflexivity|]. split; [apply perm_nil | exact I].
  - split; [rewrite insert_sorted_length, IHl; reflexivity|]. split.
    + apply perm_trans with (a :: np_sort l);
        [apply perm_skip, IHp | apply insert_sorted_perm].
    + apply insert_sorted_non_decreasing, IHs.
Qed.

(** X15. [generate_synthetic_data(n)] returns n times and n values; the
    times are the uniform draws in non-decreasing order (so within [0, 1)
    when the draws are), and the value at position i is the sine of
    2 pi times the i-th sorted time plus the i-th noise draw, hence within
    1 of that noise. *)
Theorem generate_synthetic_data_spec (uniform normal : nat -> R) (n : nat) :
  let t := fst (generate_synthetic_data uniform normal n) in
  let x := snd (generate_synthetic_data uniform normal n) in
  length t = n /\
  length x = n /\
  non_decreasing t /\
  Permutation (map uniform (seq 0 n)) t /\
  ((forall i, 0 <= uniform i < 1) -> forall ti, In ti t -> 0 <= ti < 1) /\
  forall i ti xi,
    nth_error t i = Some ti -> nth_error x i = Some xi ->
    xi = sin (2 * PI * ti) + normal i /\ -1 <= xi - normal i <= 1.
Proof.
  unfold generate_synthetic_data. cbn [fst snd].
  destruct (np_sort_spec (map uniform (seq 0 n))) as [Hl [Hp Hs]].
  rewrite length_map, length_seq in Hl.
  split; [exact Hl|]. split.
  - rewrite length_map, length_combine, Hl, length_map, length_seq.
    apply Nat.min_id.
  - split; [exact Hs|]. split; [exact Hp|]. split.
    + intros Hu ti Hti. apply (Permutation_in _ (Permutation_sym Hp)) in Hti.
      apply in_map_iff in Hti. destruct Hti as [i [<- _]]. apply Hu.
    + intros i ti xi Hti Hxi.
      rewrite nth_error_map in Hxi.
      destruct (nth_error (combine _ _) i) as [[a b]|] eqn:Hc; [|discriminate].
      simpl in Hxi. injection Hxi as <-.
      assert (Ha : nth_error (np_sort (map uniform (seq 0 n))) i = Some a /\
                   nth_error (map normal (seq 0 n)) i = Some b).
      { revert Hc. generalize (np_sort (map uniform (seq 0 n))) (map normal (seq 0 n)) i.
        induction l as [|u l IH]; intros [|z l0] [|k]; simpl; try discriminate.
        - intros H. injection H as <- <-. split; reflexivity.
        - apply IH. }
      destruct Ha as [Ha Hb]. rewrite Hti in Ha. injection Ha as <-.
      rewrite nth_error_map in Hb.
      destruct (nth_error (seq 0 n) i) as [k|] eqn:Hk; [|discriminate].
      simpl in Hb. injection Hb as <-.
      assert (k = i).
      { assert (Hi : (i < n)%nat).
        { rewrite <- (length_seq n 0). apply nth_error_Some. congruence. }
        rewrite nth_error_seq in Hk.
        destruct (Nat.ltb i n); [|discriminate]. injection Hk as <-. reflexivity. }
      subst k. split; [reflexivity|].
      pose proof (SIN_bound (2 * PI * ti)). lra.
Qed.

(* ------------------------------------------------------------------ *)
(** ** The experiment of the notebook *)

